(** * UTXO input codec of iota.go: a shallow embedding of [utxo_input.go]

    The file follows the Go source top to bottom: constants, the identifier
    type [UTXOInputID] with [ToHex], the record [UTXOInput] with [ID],
    the binary codec ([Deserialize], [Serialize]) and the JSON adapter
    ([MarshalJSON], [UnmarshalJSON]).

    Conventions.
    - A Go [byte] is a [Byte.byte]; a [[]byte] or [[n]byte] is a [list byte]
      (the length of an array is a well-formedness side condition).
    - A Go [uint16] is a [Z] in [0, 65536); an [int] is a [Z].
    - A Go [error] is [option error] where [None] is [nil].
    - A method with a pointer receiver that writes its receiver takes the
      receiver's value before the call and returns its value after it. *)

From Stdlib Require Import ZArith List Lia Bool String Ascii.
From Stdlib Require Import Strings.Byte.
From Stdlib Require Import Decimal DecimalString DecimalN DecimalZ.
Import ListNotations.
Local Open Scope Z_scope.

(** ** Go built-ins and standard library used by the file *)

Definition len {A} (l : list A) : Z := Z.of_nat (List.length l).

(** [uint16(b)] / [int(b)] of a byte. *)
Definition Z_of_byte (b : byte) : Z := Z.of_N (Byte.to_N b).

(** [byte(v)]: conversion of an integer to a byte keeps the low 8 bits. *)
Definition byte_of_Z (v : Z) : byte :=
  match Byte.of_N (Z.to_N (Z.land v 255)) with
  | Some b => b
  | None => x00
  end.

(** [uint16(v)] of an [int]: keeps the low 16 bits. *)
Definition uint16_of_Z (v : Z) : Z := Z.land v 65535.

(** [copy(dst, src)]: copies [min(len(dst), len(src))] elements and leaves
    the rest of [dst] as it was. *)
Definition copy (dst src : list byte) : list byte :=
  let n := Nat.min (List.length dst) (List.length src) in
  firstn n src ++ skipn n dst.

(** [l[i] = v]; an index out of range makes Go panic, which is [None]
    here. *)
Fixpoint store_at {A} (l : list A) (i : nat) (v : A) : option (list A) :=
  match l, i with
  | [], _ => None
  | _ :: r, O => Some (v :: r)
  | x :: r, S i' =>
      match store_at r i' v with
      | Some r' => Some (x :: r')
      | None => None
      end
  end.

Module binary.
Module LittleEndian.
(** [b[0] = byte(v); b[1] = byte(v >> 8)]; a slice shorter than two
    bytes makes Go panic, which is [None] here. *)
Definition PutUint16 (b : list byte) (v : Z) : option (list byte) :=
  match b with
  | _ :: _ :: rest => Some (byte_of_Z v :: byte_of_Z (Z.shiftr v 8) :: rest)
  | _ => None
  end.

(** [uint16(b[0]) | uint16(b[1])<<8]. *)
Definition Uint16 (b : list byte) : option Z :=
  match b with
  | b0 :: b1 :: _ => Some (Z.lor (Z_of_byte b0) (Z.shiftl (Z_of_byte b1) 8))
  | _ => None
  end.
End LittleEndian.
End binary.

Module hex.
Definition hextable : string := "0123456789abcdef".

Definition hexdigit (n : Z) : ascii :=
  match String.get (Z.to_nat n) hextable with
  | Some c => c
  | None => "0"%char
  end.

(** [hex.EncodeToString]: two lowercase digits per byte, high nibble first. *)
Fixpoint EncodeToString (src : list byte) : string :=
  match src with
  | [] => EmptyString
  | b :: rest =>
      String (hexdigit (Z.shiftr (Z_of_byte b) 4))
        (String (hexdigit (Z.land (Z_of_byte b) 15)) (EncodeToString rest))
  end.

(** [fromHexChar]: digits, [a-f] and [A-F]. *)
Definition fromHexChar (c : ascii) : option Z :=
  let n := Z.of_nat (nat_of_ascii c) in
  if (48 <=? n) && (n <=? 57) then Some (n - 48)
  else if (97 <=? n) && (n <=? 102) then Some (n - 97 + 10)
  else if (65 <=? n) && (n <=? 70) then Some (n - 65 + 10)
  else None.

(** [hex.DecodeString]: [None] stands for its two errors, [ErrLength]
    (odd length) and [InvalidByteError]. *)
Fixpoint DecodeString (s : string) : option (list byte) :=
  match s with
  | EmptyString => Some []
  | String _ EmptyString => None
  | String a (String b rest) =>
      match fromHexChar a, fromHexChar b, DecodeString rest with
      | Some hi, Some lo, Some bs => Some (byte_of_Z (Z.lor (Z.shiftl hi 4) lo) :: bs)
      | _, _, _ => None
      end
  end.
End hex.

Module fmt.
(** [fmt.Sprintf("%x", b)] of a byte array or slice: the bytes in lowercase
    hexadecimal, two digits each, nothing between them. *)
Definition Sprintf_x (b : list byte) : string := hex.EncodeToString b.
End fmt.

(** ** Constants *)

(** The minimum index of a referenced UTXO. *)
Definition RefUTXOIndexMin : Z := 0.
(** The maximum index of a referenced UTXO. *)
Definition RefUTXOIndexMax : Z := 126.

(** Modelled from the spec: the three size constants are declared in other
    files of the package; the wire layout is a 1-byte type tag, a 32-byte
    producer identifier and a 2-byte index. *)
Definition SmallTypeDenotationByteSize : Z := 1.
Definition TransactionIDLength : Z := 32.
Definition UInt16ByteSize : Z := 2.

(** The size of a UTXO input: input type + tx id + index. *)
Definition UTXOInputSize : Z :=
  SmallTypeDenotationByteSize + TransactionIDLength + UInt16ByteSize.

(** ** UTXOInputID *)

(** [type UTXOInputID [TransactionIDLength + UInt16ByteSize]byte] *)
Definition UTXOInputID := list byte.

Definition wf_UTXOInputID (id : UTXOInputID) : Prop :=
  len id = TransactionIDLength + UInt16ByteSize.

(** [ToHex] converts the UTXOInputID to its hex representation. *)
Definition UTXOInputID_ToHex (utxoInputID : UTXOInputID) : string :=
  fmt.Sprintf_x utxoInputID.

(** [UTXOInputIDs] is a slice of UTXOInputID; its [ToHex] converts every
    element. *)
Definition UTXOInputIDs := list UTXOInputID.

(** The loop of the source: [ids] starts as [len(utxoInputIDs)] empty
    strings and the body stores the hex form of element [i] at index [i],
    for [i] from 0 up. [None] is a Go panic (an index out of range). *)
Definition UTXOInputIDs_ToHex (utxoInputIDs : UTXOInputIDs) : option (list string) :=
  let ids := repeat EmptyString (List.length utxoInputIDs) in
  fold_left
    (fun (ids : option (list string)) (i : nat) =>
       match ids, nth_error utxoInputIDs i with
       | Some ids, Some id => store_at ids i (fmt.Sprintf_x id)
       | _, _ => None
       end)
    (seq 0 (List.length utxoInputIDs)) (Some ids).

(** ** UTXOInput *)

Record UTXOInput := mkUTXOInput {
  (** The transaction ID of the referenced transaction. *)
  TransactionID : list byte;
  (** The output index of the output on the referenced transaction. *)
  TransactionOutputIndex : Z
}.

(** What Go's types guarantee: a [[32]byte] and a [uint16]. *)
Definition wf_UTXOInput (u : UTXOInput) : Prop :=
  len (TransactionID u) = TransactionIDLength /\
  0 <= TransactionOutputIndex u < 65536.

Definition set_TransactionID (v : list byte) (u : UTXOInput) : UTXOInput :=
  mkUTXOInput v (TransactionOutputIndex u).

Definition set_TransactionOutputIndex (v : Z) (u : UTXOInput) : UTXOInput :=
  mkUTXOInput (TransactionID u) v.

(** [ID] returns the UTXOInputID. The two slice expressions of the source
    alias the array [id]; the writes through them are spliced back in.
    [None] is a Go panic (a slice bound out of range). *)
Definition ID (u : UTXOInput) : option UTXOInputID :=
  let id := repeat x00 (Z.to_nat (TransactionIDLength + UInt16ByteSize)) in
  let n := Z.to_nat TransactionIDLength in
  let id := copy (firstn n id) (TransactionID u) ++ skipn n id in
  match binary.LittleEndian.PutUint16 (skipn n id) (TransactionOutputIndex u) with
  | Some tail => Some (firstn n id ++ tail)
  | None => None
  end.

(** ** Errors *)

(** Modelled from the spec: the error values are declared in other files of
    the package. The spec names five kinds; it does not name the error of a
    read primitive that runs out of bytes outside strict mode, which is
    [NotEnoughData] here. *)
Inductive ErrKind :=
| TruncatedInput
| TypeMismatch
| SlotIndexOutOfRange
| MalformedJSON
| InvalidHexEncoding
| NotEnoughData.

Definition ErrKind_eqb (a b : ErrKind) : bool :=
  match a, b with
  | TruncatedInput, TruncatedInput
  | TypeMismatch, TypeMismatch
  | SlotIndexOutOfRange, SlotIndexOutOfRange
  | MalformedJSON, MalformedJSON
  | InvalidHexEncoding, InvalidHexEncoding
  | NotEnoughData, NotEnoughData => true
  | _, _ => false
  end.

(** A Go error value: a sentinel, or [fmt.Errorf] with one [%w] verb
    wrapping another error (the format string is kept as written). *)
Inductive error :=
| errors_New (k : ErrKind)
| fmt_Errorf (format : string) (e : error).

(** [errors.Is(e, k)]: follows the chain of wrapped errors. *)
Fixpoint errors_Is (e : error) (k : ErrKind) : bool :=
  match e with
  | errors_New k' => ErrKind_eqb k' k
  | fmt_Errorf _ e' => errors_Is e' k
  end.

(** A call fails with kind [k]. *)
Definition fails_with (r : option error) (k : ErrKind) : Prop :=
  exists e, r = Some e /\ errors_Is e k = true.

(** ** Validation mode *)

(** Modelled from the spec: [DeSerializationMode] and [HasMode] are declared
    in another file; the spec has the two modes [none] and [strict], and
    only the strict one carries the validation flag. *)
Inductive DeSerializationMode :=
| DeSeriModeNoValidation
| DeSeriModePerformValidation.

Definition HasMode (sm mode : DeSerializationMode) : bool :=
  match sm, mode with
  | DeSeriModePerformValidation, DeSeriModePerformValidation => true
  | _, _ => false
  end.

(** ** Validators *)

(** Modelled from the spec: [checkMinByteLength] is in another file; strict
    decoding of a buffer shorter than the record size fails with
    [TruncatedInput]. *)
Definition checkMinByteLength (min length : Z) : option error :=
  if length <? min then Some (errors_New TruncatedInput) else None.

(** Modelled from the spec: [checkTypeByte] is in another file; the first
    byte has to equal the expected type tag, else [TypeMismatch]. *)
Definition checkTypeByte (data : list byte) (shouldType : byte) : option error :=
  match data with
  | b :: _ => if Byte.eqb b shouldType then None else Some (errors_New TypeMismatch)
  | [] => Some (errors_New TypeMismatch)
  end.

(** Modelled from the spec: [utxoInputRefBoundsValidator] is in another
    file; it is the bounds-checking helper that validates the slot index
    range, here against the two constants of this file. Its first argument
    is the position of the input in a transaction ([-1] for a lone input). *)
Definition utxoInputRefBoundsValidator (index : Z) (input : UTXOInput) : option error :=
  if (TransactionOutputIndex input <? RefUTXOIndexMin)
     || (TransactionOutputIndex input >? RefUTXOIndexMax)
  then Some (errors_New SlotIndexOutOfRange)
  else None.

(** ** The byte deserializer and serializer *)

(** Method chaining [x.f(a).g(b)] is written [x |> f a |> g b]. *)
Notation "x |> f" := (f x) (at level 45, left associativity, only parsing).

(** An [ErrProducer] wraps the error of a primitive. *)
Definition ErrProducer := error -> error.

(** Modelled from the spec: the [Deserializer] type is in another file. It
    offers "read N raw bytes", "read little-endian integer" and an
    abort-on-error short-circuit: once an error is recorded every later
    step does nothing. A destination pointer into the receiver is a store
    function on the receiver; a closure that reads the receiver is a
    function of the receiver's value at the time it is called. *)
Module Deserializer.
Record t := mk { src : list byte; offset : Z; err : option error }.

Definition NewDeserializer (src : list byte) : t := mk src 0 None.

Definition rest (d : t) : list byte := skipn (Z.to_nat (offset d)) (src d).

Section Methods.
Context {T : Type}.

Definition AbortIf (errProducer : T -> option error -> option error)
    (st : t * T) : t * T :=
  let (d, x) := st in
  match err d with
  | Some _ => st
  | None =>
      match errProducer x None with
      | Some e => (mk (src d) (offset d) (Some e), x)
      | None => st
      end
  end.

Definition Skip (skip : Z) (errProducer : ErrProducer) (st : t * T) : t * T :=
  let (d, x) := st in
  match err d with
  | Some _ => st
  | None =>
      if len (rest d) <? skip
      then (mk (src d) (offset d) (Some (errProducer (errors_New NotEnoughData))), x)
      else (mk (src d) (offset d + skip) None, x)
  end.

Definition ReadArrayOf32Bytes (store : list byte -> T -> T)
    (errProducer : ErrProducer) (st : t * T) : t * T :=
  let (d, x) := st in
  match err d with
  | Some _ => st
  | None =>
      if len (rest d) <? 32
      then (mk (src d) (offset d) (Some (errProducer (errors_New NotEnoughData))), x)
      else (mk (src d) (offset d + 32) None, store (firstn 32 (rest d)) x)
  end.

(** The integer destinations the file uses. *)
Inductive NumPtr :=
| PtrUint16 (store : Z -> T -> T).

Definition ReadNum (dest : NumPtr) (errProducer : ErrProducer)
    (st : t * T) : t * T :=
  let (d, x) := st in
  match err d with
  | Some _ => st
  | None =>
      match dest with
      | PtrUint16 store =>
          match binary.LittleEndian.Uint16 (rest d) with
          | None =>
              (mk (src d) (offset d) (Some (errProducer (errors_New NotEnoughData))), x)
          | Some v => (mk (src d) (offset d + UInt16ByteSize) None, store v x)
          end
      end
  end.

Definition Done (st : t * T) : T * (Z * option error) :=
  let (d, x) := st in (x, (offset d, err d)).
End Methods.
End Deserializer.

(** Modelled from the spec: the [Serializer] type is in another file. It
    offers "write raw bytes", "write little-endian integer" and the same
    short-circuit; a failed pipeline yields no bytes. *)
Module Serializer.
Record t := mk { buf : list byte; err : option error }.

Definition NewSerializer : t := mk [] None.

(** The integer arguments the file passes to [WriteNum]. *)
Inductive Num :=
| Num_byte (b : byte)
| Num_uint16 (v : Z).

Definition AbortIf (errProducer : option error -> option error) (s : t) : t :=
  match err s with
  | Some _ => s
  | None =>
      match errProducer None with
      | Some e => mk (buf s) (Some e)
      | None => s
      end
  end.

Definition WriteNum (v : Num) (errProducer : ErrProducer) (s : t) : t :=
  match err s with
  | Some _ => s
  | None =>
      match v with
      | Num_byte b => mk (buf s ++ [b]) None
      | Num_uint16 x => mk (buf s ++ [byte_of_Z x; byte_of_Z (Z.shiftr x 8)]) None
      end
  end.

Definition WriteBytes (data : list byte) (errProducer : ErrProducer) (s : t) : t :=
  match err s with
  | Some _ => s
  | None => mk (buf s ++ data) None
  end.

Definition Serialize (s : t) : list byte * option error :=
  match err s with
  | Some e => ([], Some e)
  | None => (buf s, None)
  end.
End Serializer.

(** ** The binary codec *)

Section Codec.
(** The type tag of a UTXO input, declared with the other input types in
    another file: a byte constant, left open here. *)
Variable InputUTXO : byte.

(** [Deserialize]: the receiver before the call, the data and the mode
    give the receiver after the call, the bytes read and the error. *)
Definition Deserialize (u : UTXOInput) (data : list byte)
    (deSeriMode : DeSerializationMode) : UTXOInput * (Z * option error) :=
  (Deserializer.NewDeserializer data, u)
  |> Deserializer.AbortIf (fun (u : UTXOInput) (err : option error) =>
       if HasMode deSeriMode DeSeriModePerformValidation then
         match checkMinByteLength UTXOInputSize (len data) with
         | Some err => Some (fmt_Errorf "invalid UTXO input bytes: %w" err)
         | None =>
             match checkTypeByte data InputUTXO with
             | Some err => Some (fmt_Errorf "unable to deserialize UTXO input: %w" err)
             | None => None
             end
         end
       else None)
  |> Deserializer.Skip SmallTypeDenotationByteSize (fun err =>
       fmt_Errorf "unable to skip UTXO input type during deserialization: %w" err)
  |> Deserializer.ReadArrayOf32Bytes set_TransactionID (fun err =>
       fmt_Errorf "unable to deserialize transaction ID in UTXO input: %w" err)
  |> Deserializer.ReadNum (Deserializer.PtrUint16 set_TransactionOutputIndex) (fun err =>
       fmt_Errorf "unable to deserialize transaction output index in UTXO input: %w" err)
  |> Deserializer.AbortIf (fun (u : UTXOInput) (err : option error) =>
       if HasMode deSeriMode DeSeriModePerformValidation then
         match utxoInputRefBoundsValidator (-1) u with
         | Some err => Some (fmt_Errorf "%w: unable to deserialize UTXO input" err)
         | None => None
         end
       else None)
  |> Deserializer.Done.

(** [Serialize] only reads its receiver. *)
Definition Serialize (u : UTXOInput) (deSeriMode : DeSerializationMode)
    : list byte * option error :=
  Serializer.NewSerializer
  |> Serializer.AbortIf (fun (err : option error) =>
       if HasMode deSeriMode DeSeriModePerformValidation then
         match utxoInputRefBoundsValidator (-1) u with
         | Some err => Some (fmt_Errorf "%w: unable to serialize UTXO input" err)
         | None => None
         end
       else None)
  |> Serializer.WriteNum (Serializer.Num_byte InputUTXO) (fun err =>
       fmt_Errorf "unable to serialize UTXO input type ID: %w" err)
  |> Serializer.WriteBytes (TransactionID u) (fun err =>
       fmt_Errorf "unable to serialize UTXO input transaction ID: %w" err)
  |> Serializer.WriteNum (Serializer.Num_uint16 (TransactionOutputIndex u)) (fun err =>
       fmt_Errorf "unable to serialize UTXO input transaction output index: %w" err)
  |> Serializer.Serialize.
End Codec.

(** ** The JSON adapter *)

(** Modelled from the spec: the struct [jsonutxoinput] is declared in
    another file. It has a numeric type tag, the transaction ID as a hex
    string and the output index as an integer; the assignments in
    [MarshalJSON] give the Go types ([int], [string], [int]) and the
    spec gives the JSON names [type], [transactionId] and
    [transactionOutputIndex]. *)
Record jsonutxoinput := mkjsonutxoinput {
  jsonType : Z;
  jsonTransactionID : string;
  jsonTransactionOutputIndex : Z
}.

(** Go's [encoding/json] at the type [jsonutxoinput]. The text is a
    [string] of bytes. [Marshal] writes the compact form with the fields in
    declaration order. [Unmarshal] works as the library does: it first
    checks the whole text against the JSON grammar, then stores the
    members of a top-level object into the fields they name. An [int] is
    taken to have 64 bits. *)
Module json.

Definition dquote : ascii := "034"%char.
Definition backslash : ascii := "092"%char.

(** Integers in decimal, as [strconv] prints them. *)
Definition itoa (z : Z) : string := NilZero.string_of_int (Z.to_int z).

(** A string literal: only the quote and the backslash are escaped here;
    Go also escapes control and HTML characters. *)
Fixpoint escape (s : string) : string :=
  match s with
  | EmptyString => EmptyString
  | String c r =>
      if Ascii.eqb c dquote || Ascii.eqb c backslash
      then String backslash (String c (escape r))
      else String c (escape r)
  end.

Definition quote (s : string) : string :=
  String dquote (escape s ++ String dquote EmptyString)%string.

Definition Marshal (v : jsonutxoinput) : string * option error :=
  ("{" ++ quote "type" ++ ":" ++ itoa (jsonType v)
     ++ "," ++ quote "transactionId" ++ ":" ++ quote (jsonTransactionID v)
     ++ "," ++ quote "transactionOutputIndex" ++ ":"
     ++ itoa (jsonTransactionOutputIndex v) ++ "}",
   None)%string.

(** *** Tokens *)

Definition is_space (c : ascii) : bool :=
  Ascii.eqb c " " || Ascii.eqb c "009" || Ascii.eqb c "010" || Ascii.eqb c "013".

Definition is_digit (c : ascii) : bool :=
  (48 <=? nat_of_ascii c)%nat && (nat_of_ascii c <=? 57)%nat.

Definition is_hex (c : ascii) : bool :=
  match hex.fromHexChar c with
  | Some _ => true
  | None => false
  end.

Fixpoint skip_ws (s : string) : string :=
  match s with
  | String c r => if is_space c then skip_ws r else s
  | EmptyString => s
  end.

Definition is_simple_escape (c : ascii) : bool :=
  Ascii.eqb c dquote || Ascii.eqb c backslash || Ascii.eqb c "/"
  || Ascii.eqb c "b" || Ascii.eqb c "f" || Ascii.eqb c "n"
  || Ascii.eqb c "r" || Ascii.eqb c "t".

(** The scanner on a string literal, after its opening quote: the raw
    contents and what follows the closing quote. A control character, an
    unknown escape or a [\u] without four hex digits is a syntax error;
    bytes above 127 pass as they are. *)
Fixpoint scan_raw (s : string) : option (string * string) :=
  match s with
  | EmptyString => None
  | String c r =>
      if Ascii.eqb c dquote then Some (EmptyString, r)
      else if Ascii.eqb c backslash then
        match r with
        | String e r1 =>
            if is_simple_escape e then
              match scan_raw r1 with
              | Some (raw, rest) => Some (String c (String e raw), rest)
              | None => None
              end
            else if Ascii.eqb e "u" then
              match r1 with
              | String h1 (String h2 (String h3 (String h4 r2))) =>
                  if is_hex h1 && is_hex h2 && is_hex h3 && is_hex h4 then
                    match scan_raw r2 with
                    | Some (raw, rest) =>
                        Some (String c (String e (String h1 (String h2
                                (String h3 (String h4 raw))))), rest)
                    | None => None
                    end
                  else None
              | _ => None
              end
            else None
        | EmptyString => None
        end
      else if (nat_of_ascii c <? 32)%nat then None
      else
        match scan_raw r with
        | Some (raw, rest) => Some (String c raw, rest)
        | None => None
        end
  end.

Definition char_of_Z (z : Z) : ascii := ascii_of_nat (Z.to_nat z).
Definition Z_of_char (c : ascii) : Z := Z.of_nat (nat_of_ascii c).

(** [utf8.EncodeRune]: a surrogate or a value above [0x10FFFF] is written
    as the replacement character [U+FFFD]. *)
Definition replacement : string :=
  String (char_of_Z 239) (String (char_of_Z 191) (String (char_of_Z 189) EmptyString)).

Definition encode_rune (r : Z) : string :=
  if r <=? 127 then String (char_of_Z r) EmptyString
  else if r <=? 2047 then
    String (char_of_Z (Z.lor 192 (Z.shiftr r 6)))
      (String (char_of_Z (Z.lor 128 (Z.land r 63))) EmptyString)
  else if (1114111 <? r) || ((55296 <=? r) && (r <=? 57343)) then replacement
  else if r <=? 65535 then
    String (char_of_Z (Z.lor 224 (Z.shiftr r 12)))
      (String (char_of_Z (Z.lor 128 (Z.land (Z.shiftr r 6) 63)))
         (String (char_of_Z (Z.lor 128 (Z.land r 63))) EmptyString))
  else
    String (char_of_Z (Z.lor 240 (Z.shiftr r 18)))
      (String (char_of_Z (Z.lor 128 (Z.land (Z.shiftr r 12) 63)))
         (String (char_of_Z (Z.lor 128 (Z.land (Z.shiftr r 6) 63)))
            (String (char_of_Z (Z.lor 128 (Z.land r 63))) EmptyString))).

(** The four hex digits of a [\u] escape. *)
Definition hex4 (h1 h2 h3 h4 : ascii) : option Z :=
  match hex.fromHexChar h1, hex.fromHexChar h2, hex.fromHexChar h3, hex.fromHexChar h4 with
  | Some a, Some b, Some c, Some d => Some (((a * 16 + b) * 16 + c) * 16 + d)
  | _, _, _, _ => None
  end.

Definition unescape (c : ascii) : ascii :=
  if Ascii.eqb c "b" then "008"%char
  else if Ascii.eqb c "f" then "012"%char
  else if Ascii.eqb c "n" then "010"%char
  else if Ascii.eqb c "r" then "013"%char
  else if Ascii.eqb c "t" then "009"%char
  else c.

(** [utf8.DecodeRune] accepts these byte sequences and no other. *)
Definition is_cont (b : Z) : bool := (128 <=? b) && (b <=? 191).

Definition utf8_2 (c b1 : Z) : bool :=
  (194 <=? c) && (c <=? 223) && is_cont b1.

Definition utf8_3 (c b1 b2 : Z) : bool :=
  (((c =? 224) && (160 <=? b1) && (b1 <=? 191))
   || ((225 <=? c) && (c <=? 236) && is_cont b1)
   || ((c =? 237) && (128 <=? b1) && (b1 <=? 159))
   || ((238 <=? c) && (c <=? 239) && is_cont b1))
  && is_cont b2.

Definition utf8_4 (c b1 b2 b3 : Z) : bool :=
  (((c =? 240) && (144 <=? b1) && (b1 <=? 191))
   || ((241 <=? c) && (c <=? 243) && is_cont b1)
   || ((c =? 244) && (128 <=? b1) && (b1 <=? 143)))
  && is_cont b2 && is_cont b3.

(** [unquote]: the value of the raw contents of a literal. Escapes are
    replaced; a [\u] escape gives the UTF-8 bytes of its code point, two
    escapes that form a surrogate pair give one code point, and a lone
    surrogate gives [U+FFFD]. Bytes above 127 are kept when they form a
    valid UTF-8 sequence; every other such byte becomes [U+FFFD]. *)
Fixpoint unquote (s : string) : string :=
  match s with
  | EmptyString => EmptyString
  | String c r =>
      if Ascii.eqb c backslash then
        match r with
        | String e r1 =>
            if Ascii.eqb e "u" then
              match r1 with
              | String h1 (String h2 (String h3 (String h4 r2))) =>
                  match hex4 h1 h2 h3 h4 with
                  | Some rr =>
                      if (55296 <=? rr) && (rr <=? 57343) then
                        match r2 with
                        | String x1 (String x2 (String g1 (String g2
                            (String g3 (String g4 r3))))) =>
                            match (if Ascii.eqb x1 backslash && Ascii.eqb x2 "u"
                                   then hex4 g1 g2 g3 g4 else None) with
                            | Some rr1 =>
                                if (rr <? 56320) && (56320 <=? rr1) && (rr1 <=? 57343)
                                then (encode_rune
                                        (Z.lor (Z.shiftl (rr - 55296) 10) (rr1 - 56320)
                                         + 65536)
                                      ++ unquote r3)%string
                                else (replacement ++ unquote r2)%string
                            | None => (replacement ++ unquote r2)%string
                            end
                        | _ => (replacement ++ unquote r2)%string
                        end
                      else (encode_rune rr ++ unquote r2)%string
                  | None => unquote r2
                  end
              | _ => EmptyString
              end
            else String (unescape e) (unquote r1)
        | EmptyString => EmptyString
        end
      else if Z_of_char c <? 128 then String c (unquote r)
      else
        match r with
        | String b1 r1 =>
            if utf8_2 (Z_of_char c) (Z_of_char b1) then String c (String b1 (unquote r1))
            else
              match r1 with
              | String b2 r2 =>
                  if utf8_3 (Z_of_char c) (Z_of_char b1) (Z_of_char b2)
                  then String c (String b1 (String b2 (unquote r2)))
                  else
                    match r2 with
                    | String b3 r3 =>
                        if utf8_4 (Z_of_char c) (Z_of_char b1) (Z_of_char b2) (Z_of_char b3)
                        then String c (String b1 (String b2 (String b3 (unquote r3))))
                        else (replacement ++ unquote r)%string
                    | EmptyString => (replacement ++ unquote r)%string
                    end
              | EmptyString => (replacement ++ unquote r)%string
              end
        | EmptyString => replacement
        end
  end.

Definition scan_string (s : string) : option (string * string) :=
  match scan_raw s with
  | Some (raw, rest) => Some (unquote raw, rest)
  | None => None
  end.

Fixpoint span_digits (s : string) : string * string :=
  match s with
  | String c r =>
      if is_digit c
      then let (ds, r') := span_digits r in (String c ds, r')
      else (EmptyString, s)
  | EmptyString => (EmptyString, EmptyString)
  end.

(** The scanner on a number: an optional minus sign, [0] or digits with
    no leading zero, an optional fraction and an optional exponent. The
    literal is kept as text. *)
Definition scan_int_part (s : string) : option (string * string) :=
  match s with
  | String c r =>
      if is_digit c then
        if Ascii.eqb c "0" then Some (String c EmptyString, r)
        else let (ds, r') := span_digits r in Some (String c ds, r')
      else None
  | EmptyString => None
  end.

Definition scan_frac (s : string) : option (string * string) :=
  match s with
  | String d r =>
      if Ascii.eqb d "." then
        let (ds, r') := span_digits r in
        match ds with
        | EmptyString => None
        | String _ _ => Some (String d ds, r')
        end
      else Some (EmptyString, s)
  | EmptyString => Some (EmptyString, s)
  end.

Definition scan_exp (s : string) : option (string * string) :=
  match s with
  | String x r =>
      if Ascii.eqb x "e" || Ascii.eqb x "E" then
        let (sg, r1) :=
          match r with
          | String y r' =>
              if Ascii.eqb y "+" || Ascii.eqb y "-"
              then (String y EmptyString, r')
              else (EmptyString, r)
          | EmptyString => (EmptyString, r)
          end in
        let (ds, r2) := span_digits r1 in
        match ds with
        | EmptyString => None
        | String _ _ => Some (String x (sg ++ ds), r2)
        end
      else Some (EmptyString, s)
  | EmptyString => Some (EmptyString, s)
  end.

Definition scan_number (s : string) : option (string * string) :=
  let (sign, s1) :=
    match s with
    | String c r => if Ascii.eqb c "-" then (String c EmptyString, r) else (EmptyString, s)
    | EmptyString => (EmptyString, s)
    end in
  match scan_int_part s1 with
  | None => None
  | Some (int, s2) =>
      match scan_frac s2 with
      | None => None
      | Some (fr, s3) =>
          match scan_exp s3 with
          | None => None
          | Some (ex, s4) => Some ((sign ++ int ++ fr ++ ex)%string, s4)
          end
      end
  end.

(** *** Values *)

#[local] Set Warnings "-register-all".
Inductive value :=
| Null
| Bool (b : bool)
| Number (literal : string)
| Str (s : string)
| Array (elements : list value)
| Object (members : list (string * value)).

Inductive result (A : Type) :=
| Ok (a : A)
| SyntaxError
| OutOfFuel.
Arguments Ok {A} a.
Arguments SyntaxError {A}.
Arguments OutOfFuel {A}.

(** [s] without the prefix [p]. *)
Fixpoint strip_prefix (p s : string) : option string :=
  match p, s with
  | EmptyString, _ => Some s
  | String a p', String b s' => if Ascii.eqb a b then strip_prefix p' s' else None
  | String _ _, EmptyString => None
  end.

(** The library refuses more than 10000 open arrays and objects. *)
Definition maxNestingDepth : Z := 10000.

(** A value, the elements of an array after its opening bracket and the
    members of an object after its opening brace. [depth] counts the
    arrays and objects that are open. Every call uses one unit of fuel. *)
Fixpoint scan_value (fuel : nat) (depth : Z) (s : string) : result (value * string) :=
  match fuel with
  | O => OutOfFuel
  | S fuel' =>
      match skip_ws s with
      | EmptyString => SyntaxError
      | String c r =>
          if Ascii.eqb c "{" then
            if maxNestingDepth <=? depth then SyntaxError
            else
              match skip_ws r with
              | String c' r' =>
                  if Ascii.eqb c' "}" then Ok (Object [], r')
                  else
                    match scan_members fuel' (depth + 1) r with
                    | Ok (ms, r'') => Ok (Object ms, r'')
                    | SyntaxError => SyntaxError
                    | OutOfFuel => OutOfFuel
                    end
              | EmptyString => SyntaxError
              end
          else if Ascii.eqb c "[" then
            if maxNestingDepth <=? depth then SyntaxError
            else
              match skip_ws r with
              | String c' r' =>
                  if Ascii.eqb c' "]" then Ok (Array [], r')
                  else
                    match scan_elements fuel' (depth + 1) r with
                    | Ok (vs, r'') => Ok (Array vs, r'')
                    | SyntaxError => SyntaxError
                    | OutOfFuel => OutOfFuel
                    end
              | EmptyString => SyntaxError
              end
          else if Ascii.eqb c dquote then
            match scan_string r with
            | Some (str, r') => Ok (Str str, r')
            | None => SyntaxError
            end
          else if Ascii.eqb c "t" then
            match strip_prefix "rue" r with
            | Some r' => Ok (Bool true, r')
            | None => SyntaxError
            end
          else if Ascii.eqb c "f" then
            match strip_prefix "alse" r with
            | Some r' => Ok (Bool false, r')
            | None => SyntaxError
            end
          else if Ascii.eqb c "n" then
            match strip_prefix "ull" r with
            | Some r' => Ok (Null, r')
            | None => SyntaxError
            end
          else
            match scan_number (String c r) with
            | Some (lit, r') => Ok (Number lit, r')
            | None => SyntaxError
            end
      end
  end

with scan_elements (fuel : nat) (depth : Z) (s : string) : result (list value * string) :=
  match fuel with
  | O => OutOfFuel
  | S fuel' =>
      match scan_value fuel' depth s with
      | Ok (v, r) =>
          match skip_ws r with
          | String c r' =>
              if Ascii.eqb c "," then
                match scan_elements fuel' depth r' with
                | Ok (vs, r'') => Ok (v :: vs, r'')
                | SyntaxError => SyntaxError
                | OutOfFuel => OutOfFuel
                end
              else if Ascii.eqb c "]" then Ok ([v], r')
              else SyntaxError
          | EmptyString => SyntaxError
          end
      | SyntaxError => SyntaxError
      | OutOfFuel => OutOfFuel
      end
  end

with scan_members (fuel : nat) (depth : Z) (s : string)
    : result (list (string * value) * string) :=
  match fuel with
  | O => OutOfFuel
  | S fuel' =>
      match skip_ws s with
      | String c r =>
          if Ascii.eqb c dquote then
            match scan_string r with
            | Some (key, r1) =>
                match skip_ws r1 with
                | String c1 r2 =>
                    if Ascii.eqb c1 ":" then
                      match scan_value fuel' depth r2 with
                      | Ok (v, r3) =>
                          match skip_ws r3 with
                          | String c3 r4 =>
                              if Ascii.eqb c3 "," then
                                match scan_members fuel' depth r4 with
                                | Ok (ms, r5) => Ok ((key, v) :: ms, r5)
                                | SyntaxError => SyntaxError
                                | OutOfFuel => OutOfFuel
                                end
                              else if Ascii.eqb c3 "}" then Ok ([(key, v)], r4)
                              else SyntaxError
                          | EmptyString => SyntaxError
                          end
                      | SyntaxError => SyntaxError
                      | OutOfFuel => OutOfFuel
                      end
                    else SyntaxError
                | EmptyString => SyntaxError
                end
            | None => SyntaxError
            end
          else SyntaxError
      | EmptyString => SyntaxError
      end
  end.

(** The whole text is one value between optional whitespace. Every call
    of the three functions above is on a shorter text or follows a call on
    the same text, so twice the length is fuel enough. *)
Definition parse (data : string) : result value :=
  match scan_value (S (2 * String.length data)) 0 data with
  | Ok (v, r) =>
      match skip_ws r with
      | EmptyString => Ok v
      | String _ _ => SyntaxError
      end
  | SyntaxError => SyntaxError
  | OutOfFuel => OutOfFuel
  end.

(** *** Storing into the struct *)

Definition lower (c : ascii) : ascii :=
  if (65 <=? Z_of_char c) && (Z_of_char c <=? 90) then char_of_Z (Z_of_char c + 32) else c.

(** [bytes.EqualFold] of a key with a field name made of ASCII letters:
    letters match in either case, [s] also matches [U+017F] and [k] also
    matches [U+212A]. *)
Fixpoint equal_fold (name key : string) : bool :=
  match name, key with
  | EmptyString, EmptyString => true
  | String n name', String k key' =>
      if (Z_of_char k <? 128) && Ascii.eqb (lower n) (lower k) then equal_fold name' key'
      else if Ascii.eqb (lower n) "s" && (Z_of_char k =? 197) then
        match key' with
        | String k2 key'' => (Z_of_char k2 =? 191) && equal_fold name' key''
        | EmptyString => false
        end
      else if Ascii.eqb (lower n) "k" && (Z_of_char k =? 226) then
        match key' with
        | String k2 (String k3 key'') =>
            (Z_of_char k2 =? 132) && (Z_of_char k3 =? 170) && equal_fold name' key''
        | _ => false
        end
      else false
  | _, _ => false
  end.

Inductive field :=
| FType
| FTransactionID
| FTransactionOutputIndex.

(** The field a key names: the exact name or, failing that, a name equal
    under folding. *)
Definition field_of_key (key : string) : option field :=
  if String.eqb key "type" then Some FType
  else if String.eqb key "transactionId" then Some FTransactionID
  else if String.eqb key "transactionOutputIndex" then Some FTransactionOutputIndex
  else if equal_fold "type" key then Some FType
  else if equal_fold "transactionId" key then Some FTransactionID
  else if equal_fold "transactionOutputIndex" key then Some FTransactionOutputIndex
  else None.

(** A Go [int] has 64 bits. *)
Definition fits_int (z : Z) : bool :=
  (- 9223372036854775808 <=? z) && (z <=? 9223372036854775807).

(** [strconv.ParseInt] in base 10 on a number literal: a literal with a
    fraction or an exponent is no integer. *)
Definition parse_int (literal : string) : option Z :=
  let (neg, ds) :=
    match literal with
    | String c r => if Ascii.eqb c "-" then (true, r) else (false, literal)
    | EmptyString => (false, literal)
    end in
  match ds with
  | EmptyString => None
  | String _ _ =>
      match NilEmpty.uint_of_string ds with
      | Some d => Some (if neg then - Z.of_uint d else Z.of_uint d)
      | None => None
      end
  end.

(** One member of the object. An unknown key is skipped; [null] leaves
    the field as it is; a value of the wrong kind, or an integer that does
    not fit, is recorded as an error and the decoding goes on. *)
Definition store_member (st : jsonutxoinput * bool) (m : string * value)
    : jsonutxoinput * bool :=
  let (j, failed) := st in
  let (key, v) := m in
  match field_of_key key, v with
  | None, _ => st
  | Some _, Null => st
  | Some FType, Number lit =>
      match parse_int lit with
      | Some z =>
          if fits_int z
          then (mkjsonutxoinput z (jsonTransactionID j) (jsonTransactionOutputIndex j), failed)
          else (j, true)
      | None => (j, true)
      end
  | Some FTransactionOutputIndex, Number lit =>
      match parse_int lit with
      | Some z =>
          if fits_int z
          then (mkjsonutxoinput (jsonType j) (jsonTransactionID j) z, failed)
          else (j, true)
      | None => (j, true)
      end
  | Some FTransactionID, Str str =>
      (mkjsonutxoinput (jsonType j) str (jsonTransactionOutputIndex j), failed)
  | Some _, _ => (j, true)
  end.

(** [json.Unmarshal(data, jsonUTXO)] on a fresh [jsonutxoinput]: a syntax
    error, a top-level value other than an object or [null], or a member
    that cannot be stored gives an error, which the spec calls
    [MalformedJSON]. A top-level [null] and absent members leave the zero
    values. *)
Definition Unmarshal (data : string) : error + jsonutxoinput :=
  match parse data with
  | Ok Null => inr (mkjsonutxoinput 0 EmptyString 0)
  | Ok (Object ms) =>
      let (j, failed) := fold_left store_member ms (mkjsonutxoinput 0 EmptyString 0, false) in
      if failed then inl (errors_New MalformedJSON) else inr j
  | Ok _ => inl (errors_New MalformedJSON)
  | SyntaxError => inl (errors_New MalformedJSON)
  | OutOfFuel => inl (errors_New MalformedJSON)
  end.
End json.

(** Modelled from the spec: [jsonutxoinput.ToSerializable] is in another
    file. The ID has to be valid hex of exactly 64 characters (32 bytes),
    else [InvalidHexEncoding]; then the slot index has to be in
    [[RefUTXOIndexMin, RefUTXOIndexMax]], else [SlotIndexOutOfRange];
    there is no check of the type tag. *)
Definition jsonutxoinput_ToSerializable (j : jsonutxoinput) : error + UTXOInput :=
  match hex.DecodeString (jsonTransactionID j) with
  | None => inl (errors_New InvalidHexEncoding)
  | Some transactionIDBytes =>
      if negb (len transactionIDBytes =? TransactionIDLength)
      then inl (errors_New InvalidHexEncoding)
      else if (jsonTransactionOutputIndex j <? RefUTXOIndexMin)
              || (jsonTransactionOutputIndex j >? RefUTXOIndexMax)
      then inl (errors_New SlotIndexOutOfRange)
      else inr (mkUTXOInput transactionIDBytes
                  (uint16_of_Z (jsonTransactionOutputIndex j)))
  end.

Section JSON.
Variable InputUTXO : byte.

(** [MarshalJSON] only reads its receiver. *)
Definition MarshalJSON (u : UTXOInput) : string * option error :=
  let jsonUTXO :=
    mkjsonutxoinput
      (Z_of_byte InputUTXO)
      (hex.EncodeToString (TransactionID u))
      (TransactionOutputIndex u) in
  json.Marshal jsonUTXO.

(** [UnmarshalJSON], for any [ToSerializable]: the receiver before the
    call and the text give the receiver after the call and the error. The
    value behind the [Serializable] a successful [ToSerializable]
    returns is a [UTXOInput]. *)
Variable ToSerializable : jsonutxoinput -> error + UTXOInput.

Definition UnmarshalJSON (u : UTXOInput) (bytes : string) : UTXOInput * option error :=
  match json.Unmarshal bytes with
  | inl err => (u, Some err)
  | inr jsonUTXO =>
      match ToSerializable jsonUTXO with
      | inl err => (u, Some err)
      | inr seri => (seri, None)
      end
  end.
End JSON.

(** ** Vocabulary of the statements *)

Fixpoint string_forallb (p : ascii -> bool) (s : string) : bool :=
  match s with
  | EmptyString => true
  | String c r => p c && string_forallb p r
  end.

(** A digit or one of [a-f]. *)
Definition is_lower_hex (c : ascii) : bool :=
  json.is_digit c || ((97 <=? nat_of_ascii c)%nat && (nat_of_ascii c <=? 102)%nat).

(** The lowercase hex digit of a value below 16, by its character code:
    [0] to [9] from code 48 and [a] to [f] from code 97. *)
Definition lower_hex_digit (n : Z) : ascii :=
  if n <? 10 then ascii_of_nat (Z.to_nat (48 + n)) else ascii_of_nat (Z.to_nat (87 + n)).

(** The value of a little-endian pair of bytes, by arithmetic. *)
Definition le16_value (lo hi : byte) : Z := Z_of_byte lo + 256 * Z_of_byte hi.

(** A character a JSON string literal holds as it is. *)
Definition plain_char (c : ascii) : bool :=
  negb (Ascii.eqb c json.dquote) && negb (Ascii.eqb c json.backslash)
  && (32 <=? nat_of_ascii c)%nat && (nat_of_ascii c <? 128)%nat.

(** The text does not go on with a digit. *)
Definition no_digit_head (s : string) : bool :=
  match s with
  | String c _ => negb (json.is_digit c)
  | EmptyString => true
  end.

(** The text does not go on with a character of a number. *)
Definition ends_number (s : string) : bool :=
  match s with
  | String c _ =>
      negb (json.is_digit c || Ascii.eqb c "." || Ascii.eqb c "e" || Ascii.eqb c "E")
  | EmptyString => true
  end.

(** [ds] is the decimal numeral of [z]: digits only, at least one, no
    leading zero. *)
Definition numeral (ds : string) (z : Z) : Prop :=
  string_forallb json.is_digit ds = true /\
  (exists c r, ds = String c r /\ (Ascii.eqb c "0" = true -> r = EmptyString)) /\
  exists d, NilEmpty.uint_of_string ds = Some d /\ Z.of_uint d = z.

(** * Properties *)

(** ** Bytes and little-endian integers *)

Lemma Z_of_byte_range (b : byte) : 0 <= Z_of_byte b < 256.
Proof.
  unfold Z_of_byte. pose proof (Byte.to_N_bounded b). lia.
Qed.

Lemma byte_of_Z_of_byte (b : byte) : byte_of_Z (Z_of_byte b) = b.
Proof.
  unfold byte_of_Z, Z_of_byte.
  change 255 with (Z.ones 8). rewrite Z.land_ones by lia.
  pose proof (Byte.to_N_bounded b).
  rewrite Z.mod_small by lia.
  rewrite N2Z.id, Byte.of_to_N. reflexivity.
Qed.

Lemma Z_of_byte_of_Z (v : Z) : Z_of_byte (byte_of_Z v) = v mod 256.
Proof.
  unfold byte_of_Z, Z_of_byte.
  change 255 with (Z.ones 8). rewrite Z.land_ones by lia. change (2 ^ 8) with 256.
  pose proof (Z.mod_pos_bound v 256 ltac:(lia)) as Hb.
  destruct (Byte.of_N (Z.to_N (v mod 256))) as [b|] eqn:E.
  - apply Byte.to_of_N in E. rewrite E. lia.
  - apply Byte.of_N_None_iff in E. lia.
Qed.

Lemma byte_of_Z_inj (a b : byte) : Z_of_byte a = Z_of_byte b -> a = b.
Proof.
  intros H. rewrite <- (byte_of_Z_of_byte a), <- (byte_of_Z_of_byte b), H.
  reflexivity.
Qed.

(** [a | b<<8] is [a + 256*b] when [a] is a byte. *)
Lemma lor_shiftl_8 (a b : Z) : 0 <= a < 256 -> 0 <= b -> Z.lor a (Z.shiftl b 8) = a + 256 * b.
Proof.
  intros Ha Hb.
  rewrite Z.shiftl_mul_pow2 by lia. change (2 ^ 8) with 256.
  rewrite <- Z.lxor_lor.
  - rewrite <- Z.add_nocarry_lxor; [lia|].
    apply Z.bits_inj'. intros n Hn.
    rewrite Z.land_spec, Z.bits_0.
    destruct (Z.ltb_spec n 8).
    + replace (b * 256) with (b * 2 ^ 8) by reflexivity.
      rewrite Z.mul_pow2_bits_low by lia. apply andb_false_r.
    + rewrite (Z.bits_above_log2 a n); [reflexivity | lia |].
      destruct (Z.eq_dec a 0) as [->|]; [simpl; lia|].
      apply Z.lt_le_trans with 8; [|lia].
      apply Z.log2_lt_pow2; lia.
  - apply Z.bits_inj'. intros n Hn.
    rewrite Z.land_spec, Z.bits_0.
    destruct (Z.ltb_spec n 8).
    + replace (b * 256) with (b * 2 ^ 8) by reflexivity.
      rewrite Z.mul_pow2_bits_low by lia. apply andb_false_r.
    + rewrite (Z.bits_above_log2 a n); [reflexivity | lia |].
      destruct (Z.eq_dec a 0) as [->|]; [simpl; lia|].
      apply Z.lt_le_trans with 8; [|lia].
      apply Z.log2_lt_pow2; lia.
Qed.

Lemma Uint16_value (b0 b1 : byte) (rest : list byte) :
  binary.LittleEndian.Uint16 (b0 :: b1 :: rest) = Some (le16_value b0 b1).
Proof.
  unfold binary.LittleEndian.Uint16, le16_value.
  pose proof (Z_of_byte_range b0). pose proof (Z_of_byte_range b1).
  rewrite lor_shiftl_8 by lia. reflexivity.
Qed.

(** The two bytes [PutUint16] writes carry the value back. *)
Lemma le16_value_put (v : Z) :
  0 <= v < 65536 ->
  le16_value (byte_of_Z v) (byte_of_Z (Z.shiftr v 8)) = v.
Proof.
  intros Hv. unfold le16_value.
  rewrite !Z_of_byte_of_Z, Z.shiftr_div_pow2 by lia. change (2 ^ 8) with 256.
  rewrite (Z.mod_small (v / 256)).
  - pose proof (Z.div_mod v 256 ltac:(lia)). lia.
  - split; [apply Z.div_pos; lia | apply Z.div_lt_upper_bound; lia].
Qed.

(** A value is determined by its little-endian bytes. *)
Lemma le16_value_inj (a0 a1 b0 b1 : byte) :
  le16_value a0 a1 = le16_value b0 b1 -> a0 = b0 /\ a1 = b1.
Proof.
  unfold le16_value. intros H.
  pose proof (Z_of_byte_range a0). pose proof (Z_of_byte_range a1).
  pose proof (Z_of_byte_range b0). pose proof (Z_of_byte_range b1).
  split; apply byte_of_Z_inj; lia.
Qed.

Lemma len_app {A} (l1 l2 : list A) : len (l1 ++ l2) = len l1 + len l2.
Proof. unfold len. rewrite length_app. lia. Qed.

Lemma len_nonneg {A} (l : list A) : 0 <= len l.
Proof. unfold len. lia. Qed.

(** ** Hexadecimal *)

Lemma hex_length (bs : list byte) :
  Z.of_nat (String.length (hex.EncodeToString bs)) = 2 * len bs.
Proof.
  unfold len. induction bs as [|b bs IH]; simpl String.length; simpl List.length; lia.
Qed.

Lemma hex_digits_lower (b : byte) :
  is_lower_hex (hex.hexdigit (Z.shiftr (Z_of_byte b) 4)) = true /\
  is_lower_hex (hex.hexdigit (Z.land (Z_of_byte b) 15)) = true.
Proof. destruct b; split; reflexivity. Qed.

Lemma hex_lower (bs : list byte) :
  string_forallb is_lower_hex (hex.EncodeToString bs) = true.
Proof.
  induction bs as [|b bs IH]; simpl; [reflexivity|].
  destruct (hex_digits_lower b) as [-> ->]. exact IH.
Qed.

Lemma hex_decode_byte (b : byte) :
  hex.fromHexChar (hex.hexdigit (Z.shiftr (Z_of_byte b) 4)) = Some (Z.shiftr (Z_of_byte b) 4) /\
  hex.fromHexChar (hex.hexdigit (Z.land (Z_of_byte b) 15)) = Some (Z.land (Z_of_byte b) 15) /\
  byte_of_Z (Z.lor (Z.shiftl (Z.shiftr (Z_of_byte b) 4) 4) (Z.land (Z_of_byte b) 15)) = b.
Proof. destruct b; repeat split; reflexivity. Qed.

Lemma hex_decode_encode (bs : list byte) :
  hex.DecodeString (hex.EncodeToString bs) = Some bs.
Proof.
  induction bs as [|b bs IH]; [reflexivity|].
  cbn [hex.EncodeToString hex.DecodeString].
  destruct (hex_decode_byte b) as (-> & -> & ->). rewrite IH. reflexivity.
Qed.

(** ** The identifier *)

Lemma ID_value (u : UTXOInput) :
  len (TransactionID u) = TransactionIDLength ->
  ID u = Some (TransactionID u
                 ++ [byte_of_Z (TransactionOutputIndex u);
                     byte_of_Z (Z.shiftr (TransactionOutputIndex u) 8)]).
Proof.
  unfold len, TransactionIDLength. intros Hlen.
  assert (Hl : List.length (TransactionID u) = 32%nat) by lia.
  unfold ID, copy.
  change (Z.to_nat TransactionIDLength) with 32%nat.
  change (Z.to_nat (TransactionIDLength + UInt16ByteSize)) with 34%nat.
  change (firstn 32 (repeat x00 34)) with (repeat x00 32).
  change (skipn 32 (repeat x00 34)) with [x00; x00].
  rewrite repeat_length, Hl. change (Nat.min 32 32) with 32%nat.
  change (skipn 32 (repeat x00 32)) with (@nil byte).
  rewrite (firstn_all2 (n := 32) (TransactionID u)) by lia.
  rewrite app_nil_r.
  rewrite skipn_app, firstn_app, Hl.
  rewrite (skipn_all2 (n := 32) (TransactionID u)) by lia.
  rewrite (firstn_all2 (n := 32) (TransactionID u)) by lia.
  simpl. rewrite app_nil_r. reflexivity.
Qed.

(** [ID] returns for every record, whatever the length of the ID slice
    handed to [copy]. *)
Lemma ID_total (u : UTXOInput) : exists id, ID u = Some id /\ len id = 34.
Proof.
  unfold ID, copy.
  change (Z.to_nat TransactionIDLength) with 32%nat.
  change (Z.to_nat (TransactionIDLength + UInt16ByteSize)) with 34%nat.
  change (firstn 32 (repeat x00 34)) with (repeat x00 32).
  change (skipn 32 (repeat x00 34)) with [x00; x00].
  rewrite repeat_length.
  set (n := Nat.min 32 (List.length (TransactionID u))).
  set (body := firstn n (TransactionID u) ++ skipn n (repeat x00 32)).
  assert (E : List.length body = 32%nat).
  { subst body. rewrite length_app, length_firstn, length_skipn, repeat_length. lia. }
  clearbody body.
  rewrite skipn_app, firstn_app, E.
  rewrite (skipn_all2 (n := 32) body), (firstn_all2 (n := 32) body) by lia.
  simpl. eexists. split; [reflexivity|].
  unfold len. rewrite !length_app, E. reflexivity.
Qed.

(** C6. [ID] never fails and returns, for every record (whatever its
    output index), the 34 bytes made of the 32-byte transaction ID followed
    by the output index as two little-endian bytes; records with equal
    fields have equal identifiers. [ID] is a function of the record alone
    and hands back no new receiver: the source does not assign to it. *)
Theorem ID_total_and_deterministic :
  (forall u, exists id, ID u = Some id /\ len id = 34) /\
  (forall u, wf_UTXOInput u ->
     exists lo hi,
       ID u = Some (TransactionID u ++ [lo; hi]) /\
       len (TransactionID u ++ [lo; hi]) = 34 /\
       le16_value lo hi = TransactionOutputIndex u) /\
  (forall u1 u2,
     TransactionID u1 = TransactionID u2 ->
     TransactionOutputIndex u1 = TransactionOutputIndex u2 ->
     ID u1 = ID u2).
Proof.
  split; [exact ID_total|]. split.
  - intros u [Hlen Hidx].
    exists (byte_of_Z (TransactionOutputIndex u)),
           (byte_of_Z (Z.shiftr (TransactionOutputIndex u) 8)).
    split; [apply ID_value; exact Hlen|].
    split; [rewrite len_app, Hlen; reflexivity|].
    apply le16_value_put; exact Hidx.
  - intros [t1 i1] [t2 i2]; simpl; intros -> ->; reflexivity.
Qed.

(** A record with an output index far above the maximum, and its identifier. *)
Lemma ID_total_and_deterministic_witness :
  wf_UTXOInput (mkUTXOInput (repeat x11 32) 65535) /\
  exists lo hi,
    ID (mkUTXOInput (repeat x11 32) 65535) = Some (repeat x11 32 ++ [lo; hi]) /\
    len (repeat x11 32 ++ [lo; hi]) = 34 /\
    le16_value lo hi = 65535.
Proof.
  assert (W : wf_UTXOInput (mkUTXOInput (repeat x11 32) 65535)).
  { split; [reflexivity | simpl; lia]. }
  split; [exact W|].
  exact (proj1 (proj2 ID_total_and_deterministic) _ W).
Defined.

Lemma hex_digits_of_byte (b : byte) :
  hex.hexdigit (Z.shiftr (Z_of_byte b) 4) = lower_hex_digit (Z_of_byte b / 16) /\
  hex.hexdigit (Z.land (Z_of_byte b) 15) = lower_hex_digit (Z_of_byte b mod 16).
Proof. destruct b; split; reflexivity. Qed.

(** The two characters of byte [i] in the hex form. *)
Lemma hex_positions (bs : list byte) (i : nat) (b : byte) :
  nth_error bs i = Some b ->
  String.get (2 * i) (hex.EncodeToString bs) = Some (lower_hex_digit (Z_of_byte b / 16)) /\
  String.get (2 * i + 1) (hex.EncodeToString bs)
  = Some (lower_hex_digit (Z_of_byte b mod 16)).
Proof.
  revert i. induction bs as [|x bs IH]; intros i H.
  - destruct i; discriminate H.
  - destruct i as [|i].
    + injection H as ->. cbn [hex.EncodeToString].
      destruct (hex_digits_of_byte b) as [-> ->]. split; reflexivity.
    + cbn [nth_error] in H. specialize (IH i H).
      replace (2 * S i)%nat with (S (S (2 * i))) by lia.
      replace (S (S (2 * i)) + 1)%nat with (S (S (2 * i + 1))) by lia.
      cbn [hex.EncodeToString String.get]. exact IH.
Qed.

(** C7. [ToHex] of an identifier is the lowercase hexadecimal form of its
    34 bytes and nothing else: 68 characters, all of them lowercase hex
    digits, the characters at [2i] and [2i+1] being the high and the low
    digit of byte [i], so that the string decodes back to the identifier.
    For the transaction ID of 32 bytes [0x11] and the output index 1 it is
    64 times the digit 1 followed by [0100]. *)
Theorem ToHex_form :
  (forall id : UTXOInputID, wf_UTXOInputID id ->
     String.length (UTXOInputID_ToHex id) = 68%nat /\
     string_forallb is_lower_hex (UTXOInputID_ToHex id) = true /\
     (forall i b, nth_error id i = Some b ->
        String.get (2 * i) (UTXOInputID_ToHex id)
        = Some (lower_hex_digit (Z_of_byte b / 16)) /\
        String.get (2 * i + 1) (UTXOInputID_ToHex id)
        = Some (lower_hex_digit (Z_of_byte b mod 16))) /\
     hex.DecodeString (UTXOInputID_ToHex id) = Some id) /\
  option_map UTXOInputID_ToHex (ID (mkUTXOInput (repeat x11 32) 1))
  = Some "11111111111111111111111111111111111111111111111111111111111111110100"%string.
Proof.
  split; [|reflexivity].
  intros id Hid. unfold UTXOInputID_ToHex, fmt.Sprintf_x. split; [|split; [|split]].
  - pose proof (hex_length id) as H. red in Hid.
    change (TransactionIDLength + UInt16ByteSize) with 34 in Hid. lia.
  - apply hex_lower.
  - intros i b. apply hex_positions.
  - apply hex_decode_encode.
Qed.

Lemma ToHex_form_witness :
  String.length (UTXOInputID_ToHex (repeat xab 34)) = 68%nat /\
  string_forallb is_lower_hex (UTXOInputID_ToHex (repeat xab 34)) = true /\
  (forall i b, nth_error (repeat xab 34) i = Some b ->
     String.get (2 * i) (UTXOInputID_ToHex (repeat xab 34))
     = Some (lower_hex_digit (Z_of_byte b / 16)) /\
     String.get (2 * i + 1) (UTXOInputID_ToHex (repeat xab 34))
     = Some (lower_hex_digit (Z_of_byte b mod 16))) /\
  hex.DecodeString (UTXOInputID_ToHex (repeat xab 34)) = Some (repeat xab 34).
Proof.
  apply (proj1 ToHex_form (repeat xab 34)). reflexivity.
Defined.

(** ** The binary codec *)

(** A buffer of at least 35 bytes, cut along the wire layout. *)
Lemma wire_layout (data : list byte) :
  35 <= len data ->
  exists tag txid lo hi trailing,
    data = tag :: txid ++ lo :: hi :: trailing /\
    len txid = 32 /\
    txid = firstn 32 (skipn 1 data) /\
    nth_error data 0 = Some tag /\
    nth_error data 33 = Some lo /\
    nth_error data 34 = Some hi /\
    firstn 35 data = tag :: txid ++ [lo; hi].
Proof.
  unfold len. intros Hlen.
  destruct data as [|tag d1]; [simpl in Hlen; lia|].
  simpl List.length in Hlen.
  pose proof (firstn_skipn 32 d1) as Hsplit.
  assert (Ht : List.length (firstn 32 d1) = 32%nat) by (rewrite length_firstn; lia).
  assert (Hr : (2 <= List.length (skipn 32 d1))%nat) by (rewrite length_skipn; lia).
  destruct (skipn 32 d1) as [|lo [|hi trailing]] eqn:Hs; simpl in Hr; try lia.
  remember (firstn 32 d1) as txid eqn:Htxid. subst d1.
  exists tag, txid, lo, hi, trailing.
  split; [reflexivity|].
  split; [lia|].
  split; [exact Htxid|].
  split; [reflexivity|].
  change (nth_error (tag :: txid ++ lo :: hi :: trailing) 33)
    with (nth_error (txid ++ lo :: hi :: trailing) 32).
  change (nth_error (tag :: txid ++ lo :: hi :: trailing) 34)
    with (nth_error (txid ++ lo :: hi :: trailing) 33).
  change (firstn 35 (tag :: txid ++ lo :: hi :: trailing))
    with (tag :: firstn 34 (txid ++ lo :: hi :: trailing)).
  rewrite !nth_error_app2, Ht by lia.
  split; [reflexivity|]. split; [reflexivity|].
  rewrite firstn_app, Ht, firstn_all2 by lia. reflexivity.
Qed.

(** The steps of a [Deserializer] that has not failed. *)
Section DeserializerSteps.
Context {T : Type}.
Variables (s : list byte) (o : Z) (x : T).

Lemma AbortIf_pass (f : T -> option error -> option error) :
  f x None = None ->
  Deserializer.AbortIf f (Deserializer.mk s o None, x) = (Deserializer.mk s o None, x).
Proof. intros H. cbn. rewrite H. reflexivity. Qed.

Lemma AbortIf_stop (f : T -> option error -> option error) (e : error) :
  f x None = Some e ->
  Deserializer.AbortIf f (Deserializer.mk s o None, x)
  = (Deserializer.mk s o (Some e), x).
Proof. intros H. cbn. rewrite H. reflexivity. Qed.

Lemma Skip_ok (n : Z) (ep : ErrProducer) :
  n <= len (skipn (Z.to_nat o) s) ->
  Deserializer.Skip n ep (Deserializer.mk s o None, x)
  = (Deserializer.mk s (o + n) None, x).
Proof.
  intros H. unfold Deserializer.Skip, Deserializer.rest.
  cbn [Deserializer.err Deserializer.src Deserializer.offset].
  destruct (Z.ltb_spec (len (skipn (Z.to_nat o) s)) n); [lia|reflexivity].
Qed.

Lemma ReadArrayOf32Bytes_ok (store : list byte -> T -> T) (ep : ErrProducer) :
  32 <= len (skipn (Z.to_nat o) s) ->
  Deserializer.ReadArrayOf32Bytes store ep (Deserializer.mk s o None, x)
  = (Deserializer.mk s (o + 32) None, store (firstn 32 (skipn (Z.to_nat o) s)) x).
Proof.
  intros H. unfold Deserializer.ReadArrayOf32Bytes, Deserializer.rest.
  cbn [Deserializer.err Deserializer.src Deserializer.offset].
  destruct (Z.ltb_spec (len (skipn (Z.to_nat o) s)) 32); [lia|reflexivity].
Qed.

Lemma ReadNum_uint16_ok (store : Z -> T -> T) (ep : ErrProducer)
    (b0 b1 : byte) (r : list byte) :
  skipn (Z.to_nat o) s = b0 :: b1 :: r ->
  Deserializer.ReadNum (Deserializer.PtrUint16 store) ep (Deserializer.mk s o None, x)
  = (Deserializer.mk s (o + 2) None, store (le16_value b0 b1) x).
Proof.
  intros H. unfold Deserializer.ReadNum, Deserializer.rest.
  cbn [Deserializer.err Deserializer.src Deserializer.offset].
  rewrite H, Uint16_value. reflexivity.
Qed.
End DeserializerSteps.

Section CodecProperties.
Variable InputUTXO : byte.

Lemma bounds_ok (index : Z) (u : UTXOInput) :
  0 <= TransactionOutputIndex u <= 126 ->
  utxoInputRefBoundsValidator index u = None.
Proof.
  intros H. unfold utxoInputRefBoundsValidator, RefUTXOIndexMin, RefUTXOIndexMax.
  destruct (Z.ltb_spec (TransactionOutputIndex u) 0); [lia|].
  destruct (Z.gtb_spec (TransactionOutputIndex u) 126); [lia|]. reflexivity.
Qed.

Lemma bounds_bad (index : Z) (u : UTXOInput) :
  TransactionOutputIndex u < 0 \/ 126 < TransactionOutputIndex u ->
  utxoInputRefBoundsValidator index u = Some (errors_New SlotIndexOutOfRange).
Proof.
  intros H. unfold utxoInputRefBoundsValidator, RefUTXOIndexMin, RefUTXOIndexMax.
  destruct (Z.ltb_spec (TransactionOutputIndex u) 0); [reflexivity|].
  destruct (Z.gtb_spec (TransactionOutputIndex u) 126); [reflexivity|lia].
Qed.

(** The bytes of a successful [Serialize], in either mode. *)
Lemma Serialize_bytes (u : UTXOInput) (mode : DeSerializationMode) :
  mode = DeSeriModeNoValidation \/ 0 <= TransactionOutputIndex u <= 126 ->
  Serialize InputUTXO u mode
  = (InputUTXO :: TransactionID u
       ++ [byte_of_Z (TransactionOutputIndex u);
           byte_of_Z (Z.shiftr (TransactionOutputIndex u) 8)], None).
Proof.
  intros H. unfold Serialize.
  assert (E : (if HasMode mode DeSeriModePerformValidation then
                 match utxoInputRefBoundsValidator (-1) u with
                 | Some err => Some (fmt_Errorf "%w: unable to serialize UTXO input" err)
                 | None => None
                 end
               else None) = None).
  { destruct mode; [reflexivity|]. simpl.
    destruct H as [H|H]; [discriminate|]. rewrite bounds_ok by exact H. reflexivity. }
  unfold Serializer.AbortIf at 1. cbn [Serializer.err Serializer.NewSerializer].
  rewrite E. reflexivity.
Qed.

(** A validating [Serialize] of a record out of bounds writes nothing. *)
Lemma Serialize_strict_out_of_bounds (u : UTXOInput) :
  TransactionOutputIndex u < 0 \/ 126 < TransactionOutputIndex u ->
  Serialize InputUTXO u DeSeriModePerformValidation
  = ([], Some (fmt_Errorf "%w: unable to serialize UTXO input"
                 (errors_New SlotIndexOutOfRange))).
Proof.
  intros H. unfold Serialize.
  unfold Serializer.AbortIf at 1. cbn [Serializer.err Serializer.NewSerializer HasMode].
  rewrite bounds_bad by exact H. reflexivity.
Qed.

(** A validating [Deserialize] of a short buffer stops at the first check. *)
Lemma Deserialize_strict_short (u : UTXOInput) (data : list byte) :
  len data < 35 ->
  Deserialize InputUTXO u data DeSeriModePerformValidation
  = (u, (0, Some (fmt_Errorf "invalid UTXO input bytes: %w"
                    (errors_New TruncatedInput)))).
Proof.
  intros H. unfold Deserialize.
  unfold Deserializer.AbortIf at 2.
  cbn [Deserializer.err Deserializer.NewDeserializer HasMode].
  unfold checkMinByteLength. change UTXOInputSize with 35.
  destruct (Z.ltb_spec (len data) 35); [|lia]. reflexivity.
Qed.

(** With a wrong tag it stops at the second check. *)
Lemma Deserialize_strict_wrong_tag (u : UTXOInput) (data : list byte) :
  35 <= len data ->
  nth_error data 0 <> Some InputUTXO ->
  Deserialize InputUTXO u data DeSeriModePerformValidation
  = (u, (0, Some (fmt_Errorf "unable to deserialize UTXO input: %w"
                    (errors_New TypeMismatch)))).
Proof.
  intros H Htag. unfold Deserialize.
  unfold Deserializer.AbortIf at 2.
  cbn [Deserializer.err Deserializer.NewDeserializer HasMode].
  unfold checkMinByteLength. change UTXOInputSize with 35.
  destruct (Z.ltb_spec (len data) 35); [lia|].
  destruct data as [|b rest]; [reflexivity|]. cbn [checkTypeByte].
  destruct (Byte.eqb b InputUTXO) eqn:E; [|reflexivity].
  apply Byte.byte_dec_bl in E. subst b. simpl in Htag. congruence.
Qed.

(** Past the first check the three reads go through on a buffer of the
    wire layout, and the last check sees what was read. *)
Lemma Deserialize_reads (u : UTXOInput) (mode : DeSerializationMode)
    (tag : byte) (txid : list byte) (lo hi : byte) (trailing : list byte) :
  len txid = 32 ->
  mode = DeSeriModeNoValidation \/ tag = InputUTXO ->
  Deserialize InputUTXO u (tag :: txid ++ lo :: hi :: trailing) mode
  = (mkUTXOInput txid (le16_value lo hi),
     (35, if HasMode mode DeSeriModePerformValidation then
            match utxoInputRefBoundsValidator (-1) (mkUTXOInput txid (le16_value lo hi)) with
            | Some err => Some (fmt_Errorf "%w: unable to deserialize UTXO input" err)
            | None => None
            end
          else None)).
Proof.
  intros Hlen Hmode. unfold len in Hlen.
  assert (Hl : List.length txid = 32%nat) by lia.
  set (data := tag :: txid ++ lo :: hi :: trailing).
  assert (Hdata : 35 <= len data).
  { unfold len, data. simpl List.length. rewrite length_app. simpl List.length. lia. }
  unfold Deserialize, Deserializer.NewDeserializer.
  (* first check *)
  rewrite AbortIf_pass.
  2:{ destruct mode; [reflexivity|]. destruct Hmode as [Hm|Hm]; [discriminate|].
      cbn [HasMode]. unfold checkMinByteLength. change UTXOInputSize with 35.
      destruct (Z.ltb_spec (len data) 35); [lia|].
      unfold data. cbn [checkTypeByte]. subst tag.
      rewrite (Byte.byte_dec_lb eq_refl). reflexivity. }
  (* skip the tag *)
  rewrite Skip_ok.
  2:{ change (skipn (Z.to_nat 0) data) with data.
      change SmallTypeDenotationByteSize with 1. lia. }
  change (0 + SmallTypeDenotationByteSize) with 1.
  (* the transaction ID *)
  assert (Hrest : skipn (Z.to_nat 1) data = txid ++ lo :: hi :: trailing) by reflexivity.
  rewrite ReadArrayOf32Bytes_ok.
  2:{ rewrite Hrest, len_app. unfold len. simpl List.length. lia. }
  rewrite Hrest, firstn_app, Hl, firstn_all2 by lia.
  change (32 - 32)%nat with 0%nat. cbn [firstn]. rewrite app_nil_r.
  (* the output index *)
  rewrite (ReadNum_uint16_ok _ _ _ _ _ lo hi trailing).
  2:{ change (skipn (Z.to_nat (1 + 32)) data)
        with (skipn 32 (txid ++ lo :: hi :: trailing)).
      rewrite skipn_app, Hl, skipn_all2 by lia. reflexivity. }
  change (1 + 32 + 2) with 35.
  change (set_TransactionOutputIndex (le16_value lo hi) (set_TransactionID txid u))
    with (mkUTXOInput txid (le16_value lo hi)).
  (* last check *)
  destruct (HasMode mode DeSeriModePerformValidation) eqn:Em.
  - destruct (utxoInputRefBoundsValidator (-1) (mkUTXOInput txid (le16_value lo hi))) as [e|] eqn:Eb.
    + rewrite (AbortIf_stop _ _ _ _ (fmt_Errorf "%w: unable to deserialize UTXO input" e)).
      * reflexivity.
      * rewrite Eb. reflexivity.
    + rewrite AbortIf_pass; [reflexivity|]. rewrite Eb. reflexivity.
  - rewrite AbortIf_pass; reflexivity.
Qed.
End CodecProperties.

Lemma bounds_inv (index : Z) (u : UTXOInput) (e : error) :
  utxoInputRefBoundsValidator index u = Some e ->
  e = errors_New SlotIndexOutOfRange /\
  (TransactionOutputIndex u < 0 \/ 126 < TransactionOutputIndex u).
Proof.
  unfold utxoInputRefBoundsValidator, RefUTXOIndexMin, RefUTXOIndexMax.
  destruct (Z.ltb_spec (TransactionOutputIndex u) 0);
    destruct (Z.gtb_spec (TransactionOutputIndex u) 126); simpl;
    intros [= <-] || discriminate; split; (reflexivity || lia).
Qed.

Lemma le16_value_range (lo hi : byte) : 0 <= le16_value lo hi < 65536.
Proof.
  unfold le16_value.
  pose proof (Z_of_byte_range lo). pose proof (Z_of_byte_range hi). lia.
Qed.

Lemma byte_eq_dec (a b : byte) : {a = b} + {a <> b}.
Proof.
  destruct (Byte.eqb a b) eqn:E.
  - left. apply Byte.byte_dec_bl. exact E.
  - right. apply Byte.eqb_false. exact E.
Qed.

(** C1. Binary round trip: a record with an output index in [[0,126]],
    serialized with validation and deserialized with validation into any
    receiver, gives back the record, with 35 bytes read and no error. *)
Theorem binary_round_trip (InputUTXO : byte) (u u0 : UTXOInput) :
  wf_UTXOInput u ->
  0 <= TransactionOutputIndex u <= 126 ->
  exists data,
    Serialize InputUTXO u DeSeriModePerformValidation = (data, None) /\
    Deserialize InputUTXO u0 data DeSeriModePerformValidation = (u, (35, None)).
Proof.
  intros [Hlen Hrange] Hidx.
  eexists. split.
  - apply Serialize_bytes. right. exact Hidx.
  - change (TransactionID u ++ [?a; ?b]) with (TransactionID u ++ a :: b :: []).
    rewrite Deserialize_reads by (exact Hlen || (right; reflexivity)).
    rewrite le16_value_put by exact Hrange.
    cbn [HasMode]. rewrite bounds_ok by exact Hidx.
    destruct u; reflexivity.
Qed.

Lemma binary_round_trip_witness :
  exists data,
    Serialize x00 (mkUTXOInput (repeat x2a 32) 126) DeSeriModePerformValidation
    = (data, None) /\
    Deserialize x00 (mkUTXOInput (repeat x00 32) 0) data DeSeriModePerformValidation
    = (mkUTXOInput (repeat x2a 32) 126, (35, None)).
Proof.
  apply binary_round_trip.
  - split; [reflexivity | simpl; lia].
  - simpl; lia.
Defined.

(** C2. A validating [Serialize] fails with [SlotIndexOutOfRange] and
    returns no bytes for every output index above 126 (127 in particular);
    for the output indices 0 and 126 it succeeds and returns 35 bytes: the
    type tag, the 32 bytes of the transaction ID as they are, and the index
    as two little-endian bytes. *)
Theorem strict_encode_bounds (InputUTXO : byte) :
  (forall u, wf_UTXOInput u -> 126 < TransactionOutputIndex u ->
     fst (Serialize InputUTXO u DeSeriModePerformValidation) = [] /\
     fails_with (snd (Serialize InputUTXO u DeSeriModePerformValidation))
       SlotIndexOutOfRange) /\
  (forall u, wf_UTXOInput u ->
     TransactionOutputIndex u = 0 \/ TransactionOutputIndex u = 126 ->
     exists lo hi,
       Serialize InputUTXO u DeSeriModePerformValidation
       = (InputUTXO :: TransactionID u ++ [lo; hi], None) /\
       le16_value lo hi = TransactionOutputIndex u /\
       len (InputUTXO :: TransactionID u ++ [lo; hi]) = 35).
Proof.
  split.
  - intros u _ Hidx.
    rewrite Serialize_strict_out_of_bounds by (right; exact Hidx).
    split; [reflexivity|].
    eexists; split; reflexivity.
  - intros u [Hlen Hrange] Hidx.
    exists (byte_of_Z (TransactionOutputIndex u)),
           (byte_of_Z (Z.shiftr (TransactionOutputIndex u) 8)).
    split; [apply Serialize_bytes; right; lia|].
    split; [apply le16_value_put; exact Hrange|].
    change (InputUTXO :: TransactionID u ++ ?l) with ([InputUTXO] ++ TransactionID u ++ l).
    rewrite !len_app, Hlen. reflexivity.
Qed.

Lemma strict_encode_bounds_witness :
  (fst (Serialize x00 (mkUTXOInput (repeat x2a 32) 127) DeSeriModePerformValidation) = [] /\
   fails_with (snd (Serialize x00 (mkUTXOInput (repeat x2a 32) 127)
                      DeSeriModePerformValidation)) SlotIndexOutOfRange) /\
  (exists lo hi,
     Serialize x00 (mkUTXOInput (repeat x2a 32) 126) DeSeriModePerformValidation
     = (x00 :: repeat x2a 32 ++ [lo; hi], None) /\
     le16_value lo hi = 126 /\
     len (x00 :: repeat x2a 32 ++ [lo; hi]) = 35).
Proof.
  split.
  - apply (proj1 (strict_encode_bounds x00) (mkUTXOInput (repeat x2a 32) 127)).
    + split; [reflexivity | simpl; lia].
    + simpl; lia.
  - apply (proj2 (strict_encode_bounds x00) (mkUTXOInput (repeat x2a 32) 126)).
    + split; [reflexivity | simpl; lia].
    + right; reflexivity.
Defined.

(** C3. A validating [Deserialize] fails with [TruncatedInput] on every
    buffer shorter than 35 bytes. On a buffer of at least 35 bytes that
    starts with the type tag and carries an index in [[0,126]] at bytes 33
    and 34 it succeeds, reports 35 bytes read and fills the receiver from
    bytes 1 to 34; what follows byte 35 has no influence on the result. *)
Theorem strict_decode_truncation_and_consumption (InputUTXO : byte) :
  (forall u data, len data < 35 ->
     fails_with (snd (snd (Deserialize InputUTXO u data DeSeriModePerformValidation)))
       TruncatedInput) /\
  (forall u data lo hi,
     35 <= len data ->
     nth_error data 0 = Some InputUTXO ->
     nth_error data 33 = Some lo ->
     nth_error data 34 = Some hi ->
     0 <= le16_value lo hi <= 126 ->
     Deserialize InputUTXO u data DeSeriModePerformValidation
     = (mkUTXOInput (firstn 32 (skipn 1 data)) (le16_value lo hi), (35, None)) /\
     forall other,
       Deserialize InputUTXO u (firstn 35 data ++ other) DeSeriModePerformValidation
       = Deserialize InputUTXO u data DeSeriModePerformValidation).
Proof.
  split.
  - intros u data H. rewrite Deserialize_strict_short by exact H.
    eexists; split; reflexivity.
  - intros u data lo hi Hlen Htag Hlo Hhi Hidx.
    destruct (wire_layout data Hlen)
      as (tag & txid & lo' & hi' & trailing & Hd & Ht & Htx & H0 & H33 & H34 & H35).
    assert (tag = InputUTXO) by congruence.
    assert (lo' = lo) by congruence. assert (hi' = hi) by congruence.
    subst tag lo' hi'. rewrite <- Htx, H35. clear Htx H0 H33 H34 H35 Htag Hlo Hhi.
    subst data.
    assert (R : forall tr,
      Deserialize InputUTXO u (InputUTXO :: txid ++ lo :: hi :: tr) DeSeriModePerformValidation
      = (mkUTXOInput txid (le16_value lo hi), (35, None))).
    { intros tr. rewrite Deserialize_reads by (exact Ht || (right; reflexivity)).
      cbn [HasMode]. rewrite bounds_ok by exact Hidx. reflexivity. }
    split; [apply R|].
    intros other. rewrite R.
    change ((InputUTXO :: txid ++ [lo; hi]) ++ other)
      with (InputUTXO :: (txid ++ [lo; hi]) ++ other).
    rewrite <- app_assoc. apply R.
Qed.

Lemma strict_decode_truncation_and_consumption_witness :
  fails_with
    (snd (snd (Deserialize x00 (mkUTXOInput (repeat x00 32) 0) (repeat x00 34)
                 DeSeriModePerformValidation))) TruncatedInput /\
  (Deserialize x00 (mkUTXOInput (repeat x00 32) 0)
     (x00 :: repeat x2a 32 ++ [x7e; x00; xff; xff]) DeSeriModePerformValidation
   = (mkUTXOInput (firstn 32 (skipn 1 (x00 :: repeat x2a 32 ++ [x7e; x00; xff; xff])))
        (le16_value x7e x00), (35, None)) /\
   forall other,
     Deserialize x00 (mkUTXOInput (repeat x00 32) 0)
       (firstn 35 (x00 :: repeat x2a 32 ++ [x7e; x00; xff; xff]) ++ other)
       DeSeriModePerformValidation
     = Deserialize x00 (mkUTXOInput (repeat x00 32) 0)
         (x00 :: repeat x2a 32 ++ [x7e; x00; xff; xff]) DeSeriModePerformValidation).
Proof.
  split.
  - apply (proj1 (strict_decode_truncation_and_consumption x00)). vm_compute. reflexivity.
  - apply (proj2 (strict_decode_truncation_and_consumption x00)).
    + vm_compute. discriminate.
    + reflexivity.
    + reflexivity.
    + reflexivity.
    + vm_compute. split; discriminate.
Defined.

(** C4. On a 35-byte buffer whose first byte is not the type tag a
    validating [Deserialize] fails with [TypeMismatch]; without validation
    the same buffer is decoded: the first byte is skipped unread and the
    receiver is filled from bytes 1 to 34. *)
Theorem type_tag_check_mode_dependent (InputUTXO : byte) (u : UTXOInput) (data : list byte) :
  len data = 35 ->
  nth_error data 0 <> Some InputUTXO ->
  fails_with (snd (snd (Deserialize InputUTXO u data DeSeriModePerformValidation)))
    TypeMismatch /\
  exists lo hi,
    nth_error data 33 = Some lo /\ nth_error data 34 = Some hi /\
    Deserialize InputUTXO u data DeSeriModeNoValidation
    = (mkUTXOInput (firstn 32 (skipn 1 data)) (le16_value lo hi), (35, None)).
Proof.
  intros Hlen Htag. split.
  - rewrite Deserialize_strict_wrong_tag by (lia || exact Htag).
    eexists; split; reflexivity.
  - destruct (wire_layout data ltac:(lia))
      as (tag & txid & lo & hi & trailing & Hd & Ht & Htx & H0 & H33 & H34 & H35).
    exists lo, hi. split; [exact H33|]. split; [exact H34|].
    rewrite <- Htx. subst data.
    rewrite Deserialize_reads by (exact Ht || (left; reflexivity)).
    reflexivity.
Qed.

Lemma type_tag_check_mode_dependent_witness :
  fails_with
    (snd (snd (Deserialize x00 (mkUTXOInput (repeat x00 32) 0)
                 (x01 :: repeat x2a 32 ++ [x05; x00]) DeSeriModePerformValidation)))
    TypeMismatch /\
  exists lo hi,
    nth_error (x01 :: repeat x2a 32 ++ [x05; x00]) 33 = Some lo /\
    nth_error (x01 :: repeat x2a 32 ++ [x05; x00]) 34 = Some hi /\
    Deserialize x00 (mkUTXOInput (repeat x00 32) 0)
      (x01 :: repeat x2a 32 ++ [x05; x00]) DeSeriModeNoValidation
    = (mkUTXOInput (firstn 32 (skipn 1 (x01 :: repeat x2a 32 ++ [x05; x00])))
         (le16_value lo hi), (35, None)).
Proof.
  apply type_tag_check_mode_dependent.
  - reflexivity.
  - simpl. discriminate.
Defined.

(** C9. A validating [Deserialize] that fails with [SlotIndexOutOfRange]
    has already written the receiver: its transaction ID is bytes 1 to 32
    of the data and its output index is the out-of-range value at bytes 33
    and 34, because the bounds check comes after the reads. *)
Theorem strict_decode_not_atomic_on_bounds_error
    (InputUTXO : byte) (u u' : UTXOInput) (data : list byte) (n : Z) (e : error) :
  Deserialize InputUTXO u data DeSeriModePerformValidation = (u', (n, Some e)) ->
  errors_Is e SlotIndexOutOfRange = true ->
  exists lo hi,
    nth_error data 33 = Some lo /\ nth_error data 34 = Some hi /\
    TransactionID u' = firstn 32 (skipn 1 data) /\
    TransactionOutputIndex u' = le16_value lo hi /\
    126 < TransactionOutputIndex u'.
Proof.
  intros HD He.
  destruct (Z.lt_ge_cases (len data) 35) as [Hs|Hl].
  { rewrite Deserialize_strict_short in HD by exact Hs.
    injection HD as _ _ <-. discriminate He. }
  destruct (wire_layout data Hl)
    as (tag & txid & lo & hi & trailing & Hd & Ht & Htx & H0 & H33 & H34 & H35).
  destruct (byte_eq_dec tag InputUTXO) as [->|Hne].
  2:{ rewrite Deserialize_strict_wrong_tag in HD by (exact Hl || congruence).
      injection HD as _ _ <-. discriminate He. }
  exists lo, hi. split; [exact H33|]. split; [exact H34|].
  rewrite <- Htx. clear Htx H0 H33 H34 H35. subst data.
  rewrite Deserialize_reads in HD by (exact Ht || (right; reflexivity)).
  cbn [HasMode] in HD.
  destruct (utxoInputRefBoundsValidator (-1) (mkUTXOInput txid (le16_value lo hi)))
    as [e0|] eqn:Eb.
  2:{ discriminate HD. }
  apply bounds_inv in Eb. destruct Eb as [_ Hr]. cbn in Hr.
  injection HD as <- _ _. cbn.
  pose proof (le16_value_range lo hi).
  split; [reflexivity|]. split; [reflexivity|]. lia.
Qed.

Lemma strict_decode_not_atomic_on_bounds_error_witness :
  Deserialize x00 (mkUTXOInput (repeat x00 32) 0) (x00 :: repeat x2a 32 ++ [x7f; x00])
    DeSeriModePerformValidation
  = (mkUTXOInput (repeat x2a 32) 127,
     (35, Some (fmt_Errorf "%w: unable to deserialize UTXO input"
                  (errors_New SlotIndexOutOfRange)))) /\
  exists lo hi,
    nth_error (x00 :: repeat x2a 32 ++ [x7f; x00]) 33 = Some lo /\
    nth_error (x00 :: repeat x2a 32 ++ [x7f; x00]) 34 = Some hi /\
    TransactionID (mkUTXOInput (repeat x2a 32) 127)
    = firstn 32 (skipn 1 (x00 :: repeat x2a 32 ++ [x7f; x00])) /\
    TransactionOutputIndex (mkUTXOInput (repeat x2a 32) 127) = le16_value lo hi /\
    126 < TransactionOutputIndex (mkUTXOInput (repeat x2a 32) 127).
Proof.
  split; [reflexivity|].
  apply (strict_decode_not_atomic_on_bounds_error x00
           (mkUTXOInput (repeat x00 32) 0) (mkUTXOInput (repeat x2a 32) 127)
           (x00 :: repeat x2a 32 ++ [x7f; x00]) 35
           (fmt_Errorf "%w: unable to deserialize UTXO input"
              (errors_New SlotIndexOutOfRange))).
  - reflexivity.
  - reflexivity.
Defined.

(** ** JSON text *)

Lemma string_app_assoc (a b c : string) : ((a ++ b) ++ c = a ++ (b ++ c))%string.
Proof. induction a as [|x a IH]; simpl; [reflexivity | rewrite IH; reflexivity]. Qed.

Lemma string_forallb_app (p : ascii -> bool) (a b : string) :
  string_forallb p (a ++ b) = string_forallb p a && string_forallb p b.
Proof.
  induction a as [|x a IH]; simpl; [reflexivity|].
  rewrite IH, andb_assoc. reflexivity.
Qed.

Lemma string_of_uint_digits (d : uint) :
  string_forallb json.is_digit (NilEmpty.string_of_uint d) = true.
Proof. induction d; simpl; auto. Qed.

Lemma to_uint_no_leading_zero (p : positive) (d : uint) : Pos.to_uint p <> D0 d.
Proof.
  intros E.
  pose proof (DecimalPos.Unsigned.to_of (Pos.to_uint p)) as H.
  rewrite DecimalPos.Unsigned.of_to in H. cbn [N.to_uint] in H.
  assert (Hn : nzhead (Pos.to_uint p) <> Nil).
  { intros Hn. apply DecimalFacts.unorm_0 in Hn. rewrite <- H in Hn.
    exact (DecimalPos.Unsigned.to_uint_nonzero p Hn). }
  rewrite (DecimalFacts.unorm_nzhead _ Hn) in H.
  rewrite E in H at 1. symmetry in H.
  exact (DecimalFacts.nzhead_nonzero _ _ H).
Qed.

Lemma itoa_numeral (z : Z) : 0 <= z -> numeral (json.itoa z) z.
Proof.
  intros Hz. unfold json.itoa.
  destruct z as [|p|p]; [| |lia].
  - repeat split; try reflexivity.
    + exists "0"%char, EmptyString. split; [reflexivity|]. intros _. reflexivity.
    + exists (D0 Nil). split; reflexivity.
  - cbn [Z.to_int NilZero.string_of_int].
    pose proof (DecimalPos.Unsigned.to_uint_nonnil p) as Hnn.
    pose proof (to_uint_no_leading_zero p) as Hlz.
    assert (E : NilZero.string_of_uint (Pos.to_uint p)
                = NilEmpty.string_of_uint (Pos.to_uint p)).
    { destruct (Pos.to_uint p); [congruence | reflexivity ..]. }
    rewrite E. split; [apply string_of_uint_digits|]. split.
    + destruct (Pos.to_uint p) as [|d|d|d|d|d|d|d|d|d|d] eqn:Ed;
        [congruence | exfalso; exact (Hlz d eq_refl) | ..];
        simpl; eexists _, _; (split; [reflexivity | discriminate]).
    + exists (Pos.to_uint p). split; [apply NilEmpty.usu|].
      unfold Z.of_uint. rewrite DecimalPos.Unsigned.of_to. reflexivity.
Qed.

Lemma span_digits_app (ds rest : string) :
  string_forallb json.is_digit ds = true ->
  no_digit_head rest = true ->
  json.span_digits (ds ++ rest) = (ds, rest).
Proof.
  intros Hd Hr. induction ds as [|c ds IH]; simpl.
  - destruct rest as [|c r]; [reflexivity|]. simpl in Hr.
    destruct (json.is_digit c) eqn:E; [discriminate|].
    cbn [json.span_digits]. rewrite E. reflexivity.
  - simpl in Hd. apply andb_prop in Hd. destruct Hd as [Hc Hd].
    rewrite Hc, (IH Hd). reflexivity.
Qed.

Lemma digit_not_special (c : ascii) :
  json.is_digit c = true ->
  Ascii.eqb c "-" = false /\ Ascii.eqb c json.dquote = false /\ json.is_space c = false.
Proof.
  destruct c as [[] [] [] [] [] [] [] []]; intros H; try discriminate H;
    repeat split; reflexivity.
Qed.

Lemma digit_not_token (c : ascii) :
  json.is_digit c = true ->
  Ascii.eqb c "{" = false /\ Ascii.eqb c "[" = false /\ Ascii.eqb c "t" = false /\
  Ascii.eqb c "f" = false /\ Ascii.eqb c "n" = false.
Proof.
  destruct c as [[] [] [] [] [] [] [] []]; intros H; try discriminate H;
    repeat split; reflexivity.
Qed.

Lemma string_app_nil_r (s : string) : (s ++ EmptyString)%string = s.
Proof. induction s as [|c s IH]; simpl; [reflexivity | rewrite IH; reflexivity]. Qed.

Lemma ends_number_no_digit (rest : string) :
  ends_number rest = true -> no_digit_head rest = true.
Proof.
  destruct rest as [|c r]; [reflexivity|]. simpl.
  destruct (json.is_digit c); [discriminate | reflexivity].
Qed.

Lemma scan_frac_exp_none (rest : string) :
  ends_number rest = true ->
  json.scan_frac rest = Some (EmptyString, rest) /\
  json.scan_exp rest = Some (EmptyString, rest).
Proof.
  destruct rest as [|x rest']; [split; reflexivity|]. simpl.
  destruct (json.is_digit x); [discriminate|].
  destruct (Ascii.eqb x "."); [discriminate|].
  destruct (Ascii.eqb x "e"); [discriminate|].
  destruct (Ascii.eqb x "E"); [discriminate|].
  intros _. split; reflexivity.
Qed.

Lemma scan_number_numeral (ds rest : string) (z : Z) :
  numeral ds z ->
  ends_number rest = true ->
  json.scan_number (ds ++ rest) = Some (ds, rest).
Proof.
  intros (Hd & (c & r & -> & Hz) & _) Hr.
  pose proof Hd as Hd'. simpl in Hd'. apply andb_prop in Hd'. destruct Hd' as [Hc Hrd].
  destruct (digit_not_special c Hc) as (Hm & _ & _).
  destruct (scan_frac_exp_none rest Hr) as [Hf He].
  assert (Hi : json.scan_int_part (String c (r ++ rest)) = Some (String c r, rest)).
  { unfold json.scan_int_part. rewrite Hc.
    destruct (Ascii.eqb c "0") eqn:E0.
    - rewrite (Hz eq_refl). reflexivity.
    - rewrite (span_digits_app r rest Hrd (ends_number_no_digit rest Hr)). reflexivity. }
  unfold json.scan_number.
  change (String c r ++ rest)%string with (String c (r ++ rest)). cbv iota. rewrite Hm.
  rewrite Hi, Hf, He. cbn [append]. rewrite !string_app_nil_r. reflexivity.
Qed.

Lemma parse_int_numeral (ds : string) (z : Z) :
  numeral ds z -> json.parse_int ds = Some z.
Proof.
  intros (Hd & (c & r & -> & _) & (d & Hu & <-)).
  simpl in Hd. apply andb_prop in Hd. destruct Hd as [Hc _].
  destruct (digit_not_special c Hc) as (Hm & _ & _).
  unfold json.parse_int. rewrite Hm, Hu. reflexivity.
Qed.

Lemma scan_value_numeral (f : nat) (depth : Z) (ds rest : string) (z : Z) :
  numeral ds z ->
  ends_number rest = true ->
  json.scan_value (S f) depth (ds ++ rest) = json.Ok (json.Number ds, rest).
Proof.
  intros Hn Hr. pose proof Hn as (Hd & (c & r & E & _) & _).
  pose proof (scan_number_numeral ds rest z Hn Hr) as Hs.
  rewrite E in Hd. simpl in Hd. apply andb_prop in Hd. destruct Hd as [Hc _].
  destruct (digit_not_special c Hc) as (_ & Hq & Hsp).
  destruct (digit_not_token c Hc) as (H1 & H2 & H3 & H4 & H5).
  subst ds. change (String c r ++ rest)%string with (String c (r ++ rest)) in *.
  cbn [json.scan_value json.skip_ws]. rewrite Hsp. cbv iota.
  rewrite H1, H2, Hq, H3, H4, H5, Hs. reflexivity.
Qed.

Lemma escape_plain (s : string) :
  string_forallb plain_char s = true -> json.escape s = s.
Proof.
  induction s as [|c s IH]; simpl; [reflexivity|].
  intros H. apply andb_prop in H. destruct H as [Hc Hs].
  unfold plain_char in Hc.
  destruct (Ascii.eqb c json.dquote); [discriminate|].
  destruct (Ascii.eqb c json.backslash); [discriminate|].
  simpl. rewrite (IH Hs). reflexivity.
Qed.

Lemma plain_char_inv (c : ascii) :
  plain_char c = true ->
  Ascii.eqb c json.dquote = false /\ Ascii.eqb c json.backslash = false /\
  (nat_of_ascii c <? 32)%nat = false /\ (json.Z_of_char c <? 128) = true.
Proof.
  unfold plain_char, json.Z_of_char. intros H.
  apply andb_prop in H. destruct H as [H H4].
  apply andb_prop in H. destruct H as [H H3].
  apply andb_prop in H. destruct H as [H1 H2].
  apply negb_true_iff in H1, H2. apply Nat.leb_le in H3. apply Nat.ltb_lt in H4.
  repeat split; try assumption.
  - apply Nat.ltb_ge. exact H3.
  - apply Z.ltb_lt. lia.
Qed.

Lemma scan_raw_plain (s rest : string) :
  string_forallb plain_char s = true ->
  json.scan_raw (s ++ String json.dquote rest) = Some (s, rest).
Proof.
  induction s as [|c s IH]; intros H.
  - reflexivity.
  - simpl in H. apply andb_prop in H. destruct H as [Hc Hs].
    destruct (plain_char_inv c Hc) as (H1 & H2 & H3 & _).
    cbn [append json.scan_raw]. rewrite H1, H2, H3, (IH Hs). reflexivity.
Qed.

Lemma unquote_plain (s : string) :
  string_forallb plain_char s = true -> json.unquote s = s.
Proof.
  induction s as [|c s IH]; intros H; [reflexivity|].
  simpl in H. apply andb_prop in H. destruct H as [Hc Hs].
  destruct (plain_char_inv c Hc) as (_ & H2 & _ & H4).
  cbn [json.unquote]. rewrite H2, H4, (IH Hs). reflexivity.
Qed.

Lemma scan_string_plain (s rest : string) :
  string_forallb plain_char s = true ->
  json.scan_string (s ++ String json.dquote rest) = Some (s, rest).
Proof.
  intros H. unfold json.scan_string.
  rewrite (scan_raw_plain s rest H), (unquote_plain s H). reflexivity.
Qed.

Lemma lower_hex_plain (c : ascii) : is_lower_hex c = true -> plain_char c = true.
Proof.
  destruct c as [[] [] [] [] [] [] [] []]; intros H; try discriminate H; reflexivity.
Qed.

Lemma hex_plain (bs : list byte) :
  string_forallb plain_char (hex.EncodeToString bs) = true.
Proof.
  induction bs as [|b bs IH]; [reflexivity|].
  cbn [hex.EncodeToString string_forallb].
  destruct (hex_digits_lower b) as [H1 H2].
  rewrite (lower_hex_plain _ H1), (lower_hex_plain _ H2), IH. reflexivity.
Qed.

Lemma scan_value_string (f : nat) (depth : Z) (v rest : string) :
  string_forallb plain_char v = true ->
  json.scan_value (S f) depth (String json.dquote (v ++ String json.dquote rest))
  = json.Ok (json.Str v, rest).
Proof.
  intros Hv. cbn [json.scan_value].
  change (json.skip_ws (String json.dquote (v ++ String json.dquote rest)))
    with (String json.dquote (v ++ String json.dquote rest)).
  cbv iota.
  change (Ascii.eqb json.dquote "{") with false.
  change (Ascii.eqb json.dquote "[") with false.
  change (Ascii.eqb json.dquote json.dquote) with true. cbv iota.
  rewrite (scan_string_plain v rest Hv). reflexivity.
Qed.

(** One member followed by a comma, and the last member. *)
Lemma scan_members_more (f : nat) (depth : Z) (key s : string) (v : json.value)
    (r4 : string) :
  string_forallb plain_char key = true ->
  json.scan_value f depth s = json.Ok (v, String "," r4) ->
  json.scan_members (S f) depth
    (String json.dquote (key ++ String json.dquote (String ":" s)))
  = match json.scan_members f depth r4 with
    | json.Ok (ms, r5) => json.Ok ((key, v) :: ms, r5)
    | json.SyntaxError => json.SyntaxError
    | json.OutOfFuel => json.OutOfFuel
    end.
Proof.
  intros Hk Hv. cbn [json.scan_members].
  change (json.skip_ws (String json.dquote (key ++ String json.dquote (String ":" s))))
    with (String json.dquote (key ++ String json.dquote (String ":" s))).
  cbv iota. change (Ascii.eqb json.dquote json.dquote) with true. cbv iota.
  rewrite (scan_string_plain key _ Hk).
  change (json.skip_ws (String ":" s)) with (String ":"%char s).
  cbv iota. change (Ascii.eqb ":" ":") with true. cbv iota.
  rewrite Hv. reflexivity.
Qed.

Lemma scan_members_last (f : nat) (depth : Z) (key s : string) (v : json.value)
    (r4 : string) :
  string_forallb plain_char key = true ->
  json.scan_value f depth s = json.Ok (v, String "}" r4) ->
  json.scan_members (S f) depth
    (String json.dquote (key ++ String json.dquote (String ":" s)))
  = json.Ok ([(key, v)], r4).
Proof.
  intros Hk Hv. cbn [json.scan_members].
  change (json.skip_ws (String json.dquote (key ++ String json.dquote (String ":" s))))
    with (String json.dquote (key ++ String json.dquote (String ":" s))).
  cbv iota. change (Ascii.eqb json.dquote json.dquote) with true. cbv iota.
  rewrite (scan_string_plain key _ Hk).
  change (json.skip_ws (String ":" s)) with (String ":"%char s).
  cbv iota. change (Ascii.eqb ":" ":") with true. cbv iota.
  rewrite Hv. reflexivity.
Qed.

Lemma quote_plain (s : string) :
  string_forallb plain_char s = true ->
  json.quote s = String json.dquote (s ++ String json.dquote EmptyString).
Proof. intros H. unfold json.quote. rewrite (escape_plain s H). reflexivity. Qed.

(** The text [json.Marshal] writes, character by character. *)
Lemma Marshal_text (v : jsonutxoinput) :
  string_forallb plain_char (jsonTransactionID v) = true ->
  fst (json.Marshal v)
  = String "{" (String json.dquote ("type" ++ String json.dquote (String ":"
      (json.itoa (jsonType v) ++ String ","
        (String json.dquote ("transactionId" ++ String json.dquote (String ":"
          (String json.dquote (jsonTransactionID v ++ String json.dquote (String ","
            (String json.dquote ("transactionOutputIndex" ++ String json.dquote (String ":"
              (json.itoa (jsonTransactionOutputIndex v)
                 ++ String "}" EmptyString))))))))))))))%string.
Proof.
  intros Hp. unfold json.Marshal, fst.
  rewrite (quote_plain _ Hp).
  rewrite (quote_plain "type" eq_refl), (quote_plain "transactionId" eq_refl),
    (quote_plain "transactionOutputIndex" eq_refl).
  change (String json.dquote (jsonTransactionID v ++ String json.dquote "") ++ ?x)%string
    with (String json.dquote ((jsonTransactionID v ++ String json.dquote "") ++ x))%string.
  rewrite (string_app_assoc (jsonTransactionID v)).
  reflexivity.
Qed.

(** [json.Unmarshal] reads back what [json.Marshal] writes, for
    non-negative integers and an ID of plain characters. *)
Lemma Unmarshal_Marshal (v : jsonutxoinput) :
  0 <= jsonType v -> 0 <= jsonTransactionOutputIndex v ->
  json.fits_int (jsonType v) = true ->
  json.fits_int (jsonTransactionOutputIndex v) = true ->
  string_forallb plain_char (jsonTransactionID v) = true ->
  json.Unmarshal (fst (json.Marshal v)) = inr v.
Proof.
  intros Hty Hidx Fty Fidx Hp.
  rewrite (Marshal_text v Hp).
  pose proof (itoa_numeral _ Hty) as Nty. pose proof (itoa_numeral _ Hidx) as Nidx.
  unfold json.Unmarshal, json.parse.
  match goal with |- context [json.scan_value (S ?n) 0 (String "{" ?r)] =>
    assert (E : json.scan_value (S n) 0 (String "{" r)
                = json.Ok (json.Object
                    [("type"%string, json.Number (json.itoa (jsonType v)));
                     ("transactionId"%string, json.Str (jsonTransactionID v));
                     ("transactionOutputIndex"%string,
                      json.Number (json.itoa (jsonTransactionOutputIndex v)))],
                    EmptyString))
  end.
  { match goal with |- json.scan_value (S ?n) _ _ = _ =>
      destruct n as [|[|[|[|k]]]] eqn:El;
        [discriminate El | discriminate El | discriminate El | discriminate El |]
    end.
    clear El. cbn [json.scan_value].
    match goal with |- context [json.skip_ws (String "{" ?r)] =>
      change (json.skip_ws (String "{" r)) with (String "{"%char r);
      cbv iota; change (Ascii.eqb "{" "{") with true; cbv iota;
      change (json.maxNestingDepth <=? 0) with false; cbv iota;
      change (json.skip_ws r) with r; cbv iota;
      change (Ascii.eqb json.dquote "}") with false; cbv iota
    end.
    change (0 + 1) with 1.
    rewrite (scan_members_more (S (S (S k))) 1 "type" _
               (json.Number (json.itoa (jsonType v))) _ eq_refl
               (scan_value_numeral _ 1 _ (String "," _) _ Nty eq_refl)).
    rewrite (scan_members_more (S (S k)) 1 "transactionId" _
               (json.Str (jsonTransactionID v)) _ eq_refl
               (scan_value_string _ 1 _ _ Hp)).
    rewrite (scan_members_last (S k) 1 "transactionOutputIndex" _
               (json.Number (json.itoa (jsonTransactionOutputIndex v))) _ eq_refl
               (scan_value_numeral _ 1 _ (String "}" _) _ Nidx eq_refl)).
    reflexivity. }
  rewrite E. cbn [json.skip_ws fold_left].
  unfold json.store_member.
  change (json.field_of_key "type") with (Some json.FType).
  change (json.field_of_key "transactionId") with (Some json.FTransactionID).
  change (json.field_of_key "transactionOutputIndex") with (Some json.FTransactionOutputIndex).
  cbv iota.
  rewrite (parse_int_numeral _ _ Nty), Fty.
  cbn [jsonType jsonTransactionID jsonTransactionOutputIndex].
  rewrite (parse_int_numeral _ _ Nidx), Fidx.
  destruct v; reflexivity.
Qed.

(** The library is lenient where the text is valid JSON: an empty object
    and [null] leave the zero values, a member with an unknown name is
    skipped whatever its value, a name matches in any case, and a [\u]
    escape is decoded. *)
Example Unmarshal_empty_object :
  json.Unmarshal "{}" = inr (mkjsonutxoinput 0 EmptyString 0).
Proof. vm_compute. reflexivity. Qed.

Example Unmarshal_null :
  json.Unmarshal " null " = inr (mkjsonutxoinput 0 EmptyString 0).
Proof. vm_compute. reflexivity. Qed.

Example Unmarshal_unknown_member :
  json.Unmarshal ("{" ++ json.quote "extra" ++ ":[1.5,{" ++ json.quote "a" ++ ":null},true],"
                  ++ json.quote "TYPE" ++ ":7}")%string
  = inr (mkjsonutxoinput 7 EmptyString 0).
Proof. vm_compute. reflexivity. Qed.

Example Unmarshal_unicode_escape :
  json.Unmarshal ("{" ++ json.quote "transactionId" ++ ":"
                  ++ String json.dquote (String json.backslash ("u0061b"
                  ++ String json.dquote "}")))%string
  = inr (mkjsonutxoinput 0 "ab" 0).
Proof. vm_compute. reflexivity. Qed.

Example Unmarshal_wrong_kind :
  json.Unmarshal ("{" ++ json.quote "type" ++ ":" ++ json.quote "7" ++ "}")%string
  = inl (errors_New MalformedJSON).
Proof. vm_compute. reflexivity. Qed.

(** ** The fuel of the JSON parser is never used up *)

Lemma skip_ws_le (s : string) : (String.length (json.skip_ws s) <= String.length s)%nat.
Proof.
  induction s as [|c s IH]; [apply Nat.le_refl|].
  cbn [json.skip_ws]. destruct (json.is_space c); cbn [String.length]; lia.
Qed.

Lemma skip_ws_cons (s : string) (c : ascii) (r : string) :
  json.skip_ws s = String c r -> (String.length r < String.length s)%nat.
Proof.
  intros H. pose proof (skip_ws_le s) as L. rewrite H in L. cbn [String.length] in L. lia.
Qed.

Lemma scan_raw_lt (n : nat) :
  forall s raw rest,
    (String.length s <= n)%nat ->
    json.scan_raw s = Some (raw, rest) ->
    (String.length rest < String.length s)%nat.
Proof.
  induction n as [|n IH]; intros s raw rest Hn H.
  - destruct s; [discriminate H | cbn [String.length] in Hn; lia].
  - destruct s as [|c r]; [discriminate H|].
    cbn [String.length] in Hn |- *. cbn [json.scan_raw] in H.
    destruct (Ascii.eqb c json.dquote).
    { injection H as _ <-. lia. }
    destruct (Ascii.eqb c json.backslash).
    + destruct r as [|e r1]; [discriminate H|]. cbn [String.length] in Hn |- *.
      destruct (json.is_simple_escape e).
      * destruct (json.scan_raw r1) as [[raw' rest']|] eqn:E; [|discriminate H].
        injection H as _ <-. apply IH in E; lia.
      * destruct (Ascii.eqb e "u"); [|discriminate H].
        destruct r1 as [|h1 [|h2 [|h3 [|h4 r2]]]]; try discriminate H.
        cbn [String.length] in Hn |- *.
        destruct (json.is_hex h1 && json.is_hex h2 && json.is_hex h3 && json.is_hex h4);
          [|discriminate H].
        destruct (json.scan_raw r2) as [[raw' rest']|] eqn:E; [|discriminate H].
        injection H as _ <-. apply IH in E; lia.
    + destruct (nat_of_ascii c <? 32)%nat; [discriminate H|].
      destruct (json.scan_raw r) as [[raw' rest']|] eqn:E; [|discriminate H].
      injection H as _ <-. apply IH in E; lia.
Qed.

Lemma scan_string_lt (s str rest : string) :
  json.scan_string s = Some (str, rest) ->
  (String.length rest < String.length s)%nat.
Proof.
  unfold json.scan_string.
  destruct (json.scan_raw s) as [[raw rest']|] eqn:E; [|discriminate].
  intros [= _ <-]. exact (scan_raw_lt _ s raw rest' (Nat.le_refl _) E).
Qed.

Lemma span_digits_le (s ds r : string) :
  json.span_digits s = (ds, r) -> (String.length r <= String.length s)%nat.
Proof.
  revert ds r. induction s as [|c s IH]; intros ds r H.
  - injection H as _ <-. apply Nat.le_refl.
  - cbn [json.span_digits] in H. destruct (json.is_digit c).
    + destruct (json.span_digits s) as [ds' r'] eqn:E. injection H as _ <-.
      specialize (IH ds' r' eq_refl). cbn [String.length]. lia.
    + injection H as _ <-. apply Nat.le_refl.
Qed.

Lemma scan_int_part_lt (s int r : string) :
  json.scan_int_part s = Some (int, r) -> (String.length r < String.length s)%nat.
Proof.
  unfold json.scan_int_part. destruct s as [|c s]; [discriminate|].
  destruct (json.is_digit c); [|discriminate].
  destruct (Ascii.eqb c "0").
  - intros [= _ <-]. cbn [String.length]. lia.
  - destruct (json.span_digits s) as [ds r'] eqn:E. intros [= _ <-].
    apply span_digits_le in E. cbn [String.length]. lia.
Qed.

Lemma scan_frac_le (s fr r : string) :
  json.scan_frac s = Some (fr, r) -> (String.length r <= String.length s)%nat.
Proof.
  unfold json.scan_frac. destruct s as [|d s]; [intros [= _ <-]; apply Nat.le_refl|].
  destruct (Ascii.eqb d ".").
  - destruct (json.span_digits s) as [ds r'] eqn:E.
    destruct ds; [discriminate|]. intros [= _ <-].
    apply span_digits_le in E. cbn [String.length]. lia.
  - intros [= _ <-]. apply Nat.le_refl.
Qed.

Lemma scan_exp_le (s ex r : string) :
  json.scan_exp s = Some (ex, r) -> (String.length r <= String.length s)%nat.
Proof.
  unfold json.scan_exp. destruct s as [|x s]; [intros [= _ <-]; apply Nat.le_refl|].
  destruct (Ascii.eqb x "e" || Ascii.eqb x "E").
  - destruct (match s with
              | String y r' =>
                  if Ascii.eqb y "+" || Ascii.eqb y "-"
                  then (String y EmptyString, r')
                  else (EmptyString, s)
              | EmptyString => (EmptyString, s)
              end) as [sg r1] eqn:Es.
    assert (L1 : (String.length r1 <= String.length s)%nat).
    { destruct s as [|y r'].
      - injection Es as _ <-. apply Nat.le_refl.
      - destruct (Ascii.eqb y "+" || Ascii.eqb y "-"); injection Es as _ <-;
          cbn [String.length]; lia. }
    destruct (json.span_digits r1) as [ds r2] eqn:E.
    destruct ds; [discriminate|]. intros [= _ <-].
    apply span_digits_le in E. cbn [String.length]. lia.
  - intros [= _ <-]. apply Nat.le_refl.
Qed.

Lemma scan_number_lt (s lit r : string) :
  json.scan_number s = Some (lit, r) -> (String.length r < String.length s)%nat.
Proof.
  unfold json.scan_number.
  destruct (match s with
            | String c r0 =>
                if Ascii.eqb c "-" then (String c EmptyString, r0) else (EmptyString, s)
            | EmptyString => (EmptyString, s)
            end) as [sign s1] eqn:Es.
  assert (L1 : (String.length s1 <= String.length s)%nat).
  { destruct s as [|c r0].
    - injection Es as _ <-. apply Nat.le_refl.
    - destruct (Ascii.eqb c "-"); injection Es as _ <-; cbn [String.length]; lia. }
  destruct (json.scan_int_part s1) as [[int s2]|] eqn:E1; [|discriminate].
  destruct (json.scan_frac s2) as [[fr s3]|] eqn:E2; [|discriminate].
  destruct (json.scan_exp s3) as [[ex s4]|] eqn:E3; [|discriminate].
  intros [= _ <-].
  apply scan_int_part_lt in E1. apply scan_frac_le in E2. apply scan_exp_le in E3. lia.
Qed.

Lemma strip_prefix_le (p s r : string) :
  json.strip_prefix p s = Some r -> (String.length r <= String.length s)%nat.
Proof.
  revert s. induction p as [|a p IH]; intros s H.
  - injection H as <-. apply Nat.le_refl.
  - destruct s as [|b s]; [discriminate H|]. cbn [json.strip_prefix] in H.
    destruct (Ascii.eqb a b); [|discriminate H].
    apply IH in H. cbn [String.length]. lia.
Qed.

(** Every successful call leaves a strictly shorter text. *)
Lemma scan_consumes (fuel : nat) :
  (forall depth s v r,
     json.scan_value fuel depth s = json.Ok (v, r) ->
     (String.length r < String.length s)%nat) /\
  (forall depth s vs r,
     json.scan_elements fuel depth s = json.Ok (vs, r) ->
     (String.length r < String.length s)%nat) /\
  (forall depth s ms r,
     json.scan_members fuel depth s = json.Ok (ms, r) ->
     (String.length r < String.length s)%nat).
Proof.
  induction fuel as [|fuel (IHv & IHe & IHm)].
  { repeat split; intros; discriminate. }
  split; [|split].
  - intros depth s v r H. cbn [json.scan_value] in H.
    destruct (json.skip_ws s) as [|c r0] eqn:Ews; [discriminate H|].
    apply skip_ws_cons in Ews.
    destruct (Ascii.eqb c "{").
    { destruct (json.maxNestingDepth <=? depth); [discriminate H|].
      destruct (json.skip_ws r0) as [|c' r'] eqn:Ews'; [discriminate H|].
      apply skip_ws_cons in Ews'.
      destruct (Ascii.eqb c' "}").
      - injection H as _ <-. lia.
      - destruct (json.scan_members fuel (depth + 1) r0) as [[ms r'']| |] eqn:E;
          try discriminate H.
        injection H as _ <-. apply IHm in E. lia. }
    destruct (Ascii.eqb c "[").
    { destruct (json.maxNestingDepth <=? depth); [discriminate H|].
      destruct (json.skip_ws r0) as [|c' r'] eqn:Ews'; [discriminate H|].
      apply skip_ws_cons in Ews'.
      destruct (Ascii.eqb c' "]").
      - injection H as _ <-. lia.
      - destruct (json.scan_elements fuel (depth + 1) r0) as [[vs r'']| |] eqn:E;
          try discriminate H.
        injection H as _ <-. apply IHe in E. lia. }
    destruct (Ascii.eqb c json.dquote).
    { destruct (json.scan_string r0) as [[str r']|] eqn:E; [|discriminate H].
      injection H as _ <-. apply scan_string_lt in E. lia. }
    destruct (Ascii.eqb c "t").
    { destruct (json.strip_prefix "rue" r0) as [r'|] eqn:E; [|discriminate H].
      injection H as _ <-. apply strip_prefix_le in E. lia. }
    destruct (Ascii.eqb c "f").
    { destruct (json.strip_prefix "alse" r0) as [r'|] eqn:E; [|discriminate H].
      injection H as _ <-. apply strip_prefix_le in E. lia. }
    destruct (Ascii.eqb c "n").
    { destruct (json.strip_prefix "ull" r0) as [r'|] eqn:E; [|discriminate H].
      injection H as _ <-. apply strip_prefix_le in E. lia. }
    destruct (json.scan_number (String c r0)) as [[lit r']|] eqn:E; [|discriminate H].
    injection H as _ <-. apply scan_number_lt in E. cbn [String.length] in E. lia.
  - intros depth s vs r H. cbn [json.scan_elements] in H.
    destruct (json.scan_value fuel depth s) as [[v r0]| |] eqn:E; try discriminate H.
    apply IHv in E.
    destruct (json.skip_ws r0) as [|c r'] eqn:Ews; [discriminate H|].
    apply skip_ws_cons in Ews.
    destruct (Ascii.eqb c ",").
    + destruct (json.scan_elements fuel depth r') as [[vs' r'']| |] eqn:E';
        try discriminate H.
      injection H as _ <-. apply IHe in E'. lia.
    + destruct (Ascii.eqb c "]"); [|discriminate H]. injection H as _ <-. lia.
  - intros depth s ms r H. cbn [json.scan_members] in H.
    destruct (json.skip_ws s) as [|c r0] eqn:Ews; [discriminate H|].
    apply skip_ws_cons in Ews.
    destruct (Ascii.eqb c json.dquote); [|discriminate H].
    destruct (json.scan_string r0) as [[key r1]|] eqn:Ek; [|discriminate H].
    apply scan_string_lt in Ek.
    destruct (json.skip_ws r1) as [|c1 r2] eqn:Ews1; [discriminate H|].
    apply skip_ws_cons in Ews1.
    destruct (Ascii.eqb c1 ":"); [|discriminate H].
    destruct (json.scan_value fuel depth r2) as [[v r3]| |] eqn:E; try discriminate H.
    apply IHv in E.
    destruct (json.skip_ws r3) as [|c3 r4] eqn:Ews3; [discriminate H|].
    apply skip_ws_cons in Ews3.
    destruct (Ascii.eqb c3 ",").
    + destruct (json.scan_members fuel depth r4) as [[ms' r5]| |] eqn:E';
        try discriminate H.
      injection H as _ <-. apply IHm in E'. lia.
    + destruct (Ascii.eqb c3 "}"); [|discriminate H]. injection H as _ <-. lia.
Qed.

(** With fuel above twice the length of the text no call runs out. *)
Lemma scan_fuel_enough (fuel : nat) :
  (forall depth s,
     (2 * String.length s + 1 <= fuel)%nat ->
     json.scan_value fuel depth s <> json.OutOfFuel) /\
  (forall depth s,
     (2 * String.length s + 2 <= fuel)%nat ->
     json.scan_elements fuel depth s <> json.OutOfFuel) /\
  (forall depth s,
     (2 * String.length s + 2 <= fuel)%nat ->
     json.scan_members fuel depth s <> json.OutOfFuel).
Proof.
  induction fuel as [|fuel (IHv & IHe & IHm)].
  { repeat split; intros; lia. }
  destruct (scan_consumes fuel) as (Cv & Ce & Cm).
  split; [|split].
  - intros depth s Hf. cbn [json.scan_value].
    destruct (json.skip_ws s) as [|c r0] eqn:Ews; [discriminate|].
    apply skip_ws_cons in Ews.
    destruct (Ascii.eqb c "{").
    { destruct (json.maxNestingDepth <=? depth); [discriminate|].
      destruct (json.skip_ws r0) as [|c' r']; [discriminate|].
      destruct (Ascii.eqb c' "}"); [discriminate|].
      pose proof (IHm (depth + 1) r0 ltac:(lia)) as Hm.
      destruct (json.scan_members fuel (depth + 1) r0) as [[ms r'']| |];
        [discriminate | discriminate | destruct (Hm eq_refl)]. }
    destruct (Ascii.eqb c "[").
    { destruct (json.maxNestingDepth <=? depth); [discriminate|].
      destruct (json.skip_ws r0) as [|c' r']; [discriminate|].
      destruct (Ascii.eqb c' "]"); [discriminate|].
      pose proof (IHe (depth + 1) r0 ltac:(lia)) as He.
      destruct (json.scan_elements fuel (depth + 1) r0) as [[vs r'']| |];
        [discriminate | discriminate | destruct (He eq_refl)]. }
    destruct (Ascii.eqb c json.dquote).
    { destruct (json.scan_string r0) as [[str r']|]; discriminate. }
    destruct (Ascii.eqb c "t").
    { destruct (json.strip_prefix "rue" r0); discriminate. }
    destruct (Ascii.eqb c "f").
    { destruct (json.strip_prefix "alse" r0); discriminate. }
    destruct (Ascii.eqb c "n").
    { destruct (json.strip_prefix "ull" r0); discriminate. }
    destruct (json.scan_number (String c r0)) as [[lit r']|]; discriminate.
  - intros depth s Hf. cbn [json.scan_elements].
    pose proof (IHv depth s ltac:(lia)) as Hv.
    destruct (json.scan_value fuel depth s) as [[v r0]| |] eqn:E;
      [| discriminate | destruct (Hv eq_refl)].
    apply Cv in E.
    destruct (json.skip_ws r0) as [|c r'] eqn:Ews; [discriminate|].
    apply skip_ws_cons in Ews.
    destruct (Ascii.eqb c ",").
    + pose proof (IHe depth r' ltac:(lia)) as He.
      destruct (json.scan_elements fuel depth r') as [[vs' r'']| |];
        [discriminate | discriminate | destruct (He eq_refl)].
    + destruct (Ascii.eqb c "]"); discriminate.
  - intros depth s Hf. cbn [json.scan_members].
    destruct (json.skip_ws s) as [|c r0] eqn:Ews; [discriminate|].
    apply skip_ws_cons in Ews.
    destruct (Ascii.eqb c json.dquote); [|discriminate].
    destruct (json.scan_string r0) as [[key r1]|] eqn:Ek; [|discriminate].
    apply scan_string_lt in Ek.
    destruct (json.skip_ws r1) as [|c1 r2] eqn:Ews1; [discriminate|].
    apply skip_ws_cons in Ews1.
    destruct (Ascii.eqb c1 ":"); [|discriminate].
    pose proof (IHv depth r2 ltac:(lia)) as Hv.
    destruct (json.scan_value fuel depth r2) as [[v r3]| |] eqn:E;
      [| discriminate | destruct (Hv eq_refl)].
    apply Cv in E.
    destruct (json.skip_ws r3) as [|c3 r4] eqn:Ews3; [discriminate|].
    apply skip_ws_cons in Ews3.
    destruct (Ascii.eqb c3 ",").
    + pose proof (IHm depth r4 ltac:(lia)) as Hm.
      destruct (json.scan_members fuel depth r4) as [[ms' r5]| |];
        [discriminate | discriminate | destruct (Hm eq_refl)].
    + destruct (Ascii.eqb c3 "}"); discriminate.
Qed.

(** The parser always decides: it returns a value or a syntax error. *)
Theorem parse_decides (data : string) : json.parse data <> json.OutOfFuel.
Proof.
  unfold json.parse.
  pose proof (proj1 (scan_fuel_enough (S (2 * String.length data))) 0 data ltac:(lia)) as H.
  destruct (json.scan_value (S (2 * String.length data)) 0 data) as [[v r]| |];
    [| discriminate | destruct (H eq_refl)].
  destruct (json.skip_ws r); discriminate.
Qed.

(** [hex.DecodeString] gives one byte for every two characters. *)
Lemma hex_decode_length (s : string) (bs : list byte) :
  hex.DecodeString s = Some bs -> String.length s = (2 * List.length bs)%nat.
Proof.
  revert bs.
  enough (H : (forall bs, hex.DecodeString s = Some bs ->
                 String.length s = (2 * List.length bs)%nat) /\
              (forall c bs, hex.DecodeString (String c s) = Some bs ->
                 String.length (String c s) = (2 * List.length bs)%nat))
    by exact (proj1 H).
  induction s as [|a s [IH1 IH2]].
  - split; [intros bs [= <-]; reflexivity | intros c bs H; discriminate H].
  - split; [exact (IH2 a)|].
    intros c bs H. cbn [hex.DecodeString] in H.
    destruct (hex.fromHexChar c); [|discriminate H].
    destruct (hex.fromHexChar a); [|discriminate H].
    destruct (hex.DecodeString s) as [bs'|] eqn:E; [|discriminate H].
    injection H as <-. specialize (IH1 bs' eq_refl).
    cbn [String.length List.length]. lia.
Qed.

Lemma uint16_of_Z_small (v : Z) : 0 <= v < 65536 -> uint16_of_Z v = v.
Proof.
  intros H. unfold uint16_of_Z. change 65535 with (Z.ones 16).
  rewrite Z.land_ones by lia. apply Z.mod_small. exact H.
Qed.

(** ** The JSON adapter *)

Lemma ToSerializable_of_Marshal (InputUTXO : byte) (u : UTXOInput) :
  wf_UTXOInput u ->
  json.Unmarshal (fst (MarshalJSON InputUTXO u))
  = inr (mkjsonutxoinput (Z_of_byte InputUTXO) (hex.EncodeToString (TransactionID u))
           (TransactionOutputIndex u)).
Proof.
  intros [Hlen Hidx]. unfold MarshalJSON.
  pose proof (Z_of_byte_range InputUTXO) as Hb.
  apply Unmarshal_Marshal; cbn [jsonType jsonTransactionID jsonTransactionOutputIndex].
  - lia.
  - lia.
  - unfold json.fits_int. apply andb_true_intro. split; apply Z.leb_le; lia.
  - unfold json.fits_int. apply andb_true_intro. split; apply Z.leb_le; lia.
  - apply hex_plain.
Qed.

Lemma ToSerializable_encoded (ty : Z) (u : UTXOInput) :
  wf_UTXOInput u ->
  jsonutxoinput_ToSerializable
    (mkjsonutxoinput ty (hex.EncodeToString (TransactionID u)) (TransactionOutputIndex u))
  = if (TransactionOutputIndex u >? 126)
    then inl (errors_New SlotIndexOutOfRange)
    else inr u.
Proof.
  intros [Hlen Hidx]. unfold jsonutxoinput_ToSerializable.
  cbn [jsonTransactionID jsonTransactionOutputIndex].
  rewrite hex_decode_encode, Hlen. change (negb (32 =? 32)) with false. cbv iota.
  unfold RefUTXOIndexMin, RefUTXOIndexMax.
  destruct (Z.ltb_spec (TransactionOutputIndex u) 0); [lia|]. cbn [orb].
  destruct (TransactionOutputIndex u >? 126); [reflexivity|].
  rewrite uint16_of_Z_small by exact Hidx. destruct u; reflexivity.
Qed.

(** C5. [MarshalJSON] succeeds on every record, whatever its output index:
    it writes the type tag and the output index as decimal numerals and
    the transaction ID as 64 characters of lowercase hex. [UnmarshalJSON]
    takes no validation mode and rejects every output index outside
    [[0,126]]: a text whose fields parse and whose ID is 32 bytes of hex
    fails with [SlotIndexOutOfRange], and no call succeeds with an index
    out of range. *)
Theorem json_validation_asymmetry (InputUTXO : byte) :
  (forall u, wf_UTXOInput u ->
     exists tag id idx,
       MarshalJSON InputUTXO u
       = (String "{" (json.quote "type" ++ ":" ++ tag ++ ","
            ++ json.quote "transactionId" ++ ":" ++ json.quote id ++ ","
            ++ json.quote "transactionOutputIndex" ++ ":" ++ idx ++ "}")%string, None) /\
       numeral tag (Z_of_byte InputUTXO) /\
       String.length id = 64%nat /\
       string_forallb is_lower_hex id = true /\
       hex.DecodeString id = Some (TransactionID u) /\
       numeral idx (TransactionOutputIndex u)) /\
  (forall u0 bytes j bs,
     json.Unmarshal bytes = inr j ->
     hex.DecodeString (jsonTransactionID j) = Some bs -> len bs = 32 ->
     jsonTransactionOutputIndex j < 0 \/ 126 < jsonTransactionOutputIndex j ->
     fst (UnmarshalJSON jsonutxoinput_ToSerializable u0 bytes) = u0 /\
     fails_with (snd (UnmarshalJSON jsonutxoinput_ToSerializable u0 bytes))
       SlotIndexOutOfRange) /\
  (forall u0 bytes u',
     UnmarshalJSON jsonutxoinput_ToSerializable u0 bytes = (u', None) ->
     0 <= TransactionOutputIndex u' <= 126).
Proof.
  split; [|split].
  - intros u [Hlen Hidx].
    exists (json.itoa (Z_of_byte InputUTXO)), (hex.EncodeToString (TransactionID u)),
           (json.itoa (TransactionOutputIndex u)).
    pose proof (Z_of_byte_range InputUTXO) as Hb.
    split; [reflexivity|].
    split; [apply itoa_numeral; lia|].
    split; [pose proof (hex_length (TransactionID u)) as H; rewrite Hlen in H;
            change TransactionIDLength with 32 in H; lia|].
    split; [apply hex_lower|].
    split; [apply hex_decode_encode|].
    apply itoa_numeral; lia.
  - intros u0 bytes j bs Hj Hhex Hbs Hidx.
    unfold UnmarshalJSON, jsonutxoinput_ToSerializable. rewrite Hj, Hhex, Hbs.
    change (negb (32 =? TransactionIDLength)) with false. cbv iota.
    unfold RefUTXOIndexMin, RefUTXOIndexMax.
    assert (E : (jsonTransactionOutputIndex j <? 0) || (jsonTransactionOutputIndex j >? 126)
                = true).
    { destruct (Z.ltb_spec (jsonTransactionOutputIndex j) 0); [reflexivity|].
      destruct (Z.gtb_spec (jsonTransactionOutputIndex j) 126); [reflexivity|lia]. }
    rewrite E. split; [reflexivity|]. eexists; split; reflexivity.
  - intros u0 bytes u'. unfold UnmarshalJSON, jsonutxoinput_ToSerializable.
    destruct (json.Unmarshal bytes) as [e|j]; [discriminate|].
    destruct (hex.DecodeString (jsonTransactionID j)) as [bs|]; [|discriminate].
    destruct (negb (len bs =? TransactionIDLength)); [discriminate|].
    unfold RefUTXOIndexMin, RefUTXOIndexMax.
    destruct (Z.ltb_spec (jsonTransactionOutputIndex j) 0); [discriminate|].
    destruct (Z.gtb_spec (jsonTransactionOutputIndex j) 126); [discriminate|].
    cbn [orb]. intros [= <-]. cbn [TransactionOutputIndex].
    rewrite uint16_of_Z_small by lia. lia.
Qed.

Lemma json_validation_asymmetry_witness :
  (exists tag id idx,
     MarshalJSON x00 (mkUTXOInput (repeat x2a 32) 65535)
     = (String "{" (json.quote "type" ++ ":" ++ tag ++ ","
          ++ json.quote "transactionId" ++ ":" ++ json.quote id ++ ","
          ++ json.quote "transactionOutputIndex" ++ ":" ++ idx ++ "}")%string, None) /\
     numeral tag (Z_of_byte x00) /\
     String.length id = 64%nat /\
     string_forallb is_lower_hex id = true /\
     hex.DecodeString id = Some (repeat x2a 32) /\
     numeral idx 65535) /\
  (fst (UnmarshalJSON jsonutxoinput_ToSerializable (mkUTXOInput (repeat x00 32) 0)
          (fst (MarshalJSON x00 (mkUTXOInput (repeat x2a 32) 127))))
   = mkUTXOInput (repeat x00 32) 0 /\
   fails_with
     (snd (UnmarshalJSON jsonutxoinput_ToSerializable (mkUTXOInput (repeat x00 32) 0)
             (fst (MarshalJSON x00 (mkUTXOInput (repeat x2a 32) 127)))))
     SlotIndexOutOfRange) /\
  0 <= TransactionOutputIndex (mkUTXOInput (repeat x2a 32) 126) <= 126.
Proof.
  split; [|split].
  - apply (proj1 (json_validation_asymmetry x00) (mkUTXOInput (repeat x2a 32) 65535)).
    split; [reflexivity | simpl; lia].
  - apply (proj1 (proj2 (json_validation_asymmetry x00))
             (mkUTXOInput (repeat x00 32) 0)
             (fst (MarshalJSON x00 (mkUTXOInput (repeat x2a 32) 127)))
             (mkjsonutxoinput 0 (hex.EncodeToString (repeat x2a 32)) 127)
             (repeat x2a 32)).
    + vm_compute. reflexivity.
    + vm_compute. reflexivity.
    + reflexivity.
    + right. simpl. lia.
  - apply (proj2 (proj2 (json_validation_asymmetry x00))
             (mkUTXOInput (repeat x00 32) 0)
             (fst (MarshalJSON x00 (mkUTXOInput (repeat x2a 32) 126)))
             (mkUTXOInput (repeat x2a 32) 126)).
    vm_compute. reflexivity.
Defined.

(** C8. JSON round trip: a record with an output index in [[0,126]],
    written by [MarshalJSON] and read by [UnmarshalJSON] into any receiver,
    gives back the record with no error. A text whose ID field holds 63
    characters fails with [InvalidHexEncoding]. *)
Theorem json_round_trip_and_hex_length (InputUTXO : byte) :
  (forall u u0, wf_UTXOInput u -> 0 <= TransactionOutputIndex u <= 126 ->
     exists text,
       MarshalJSON InputUTXO u = (text, None) /\
       UnmarshalJSON jsonutxoinput_ToSerializable u0 text = (u, None)) /\
  (forall u0 bytes j,
     json.Unmarshal bytes = inr j ->
     String.length (jsonTransactionID j) = 63%nat ->
     fails_with (snd (UnmarshalJSON jsonutxoinput_ToSerializable u0 bytes))
       InvalidHexEncoding).
Proof.
  split.
  - intros u u0 Hwf Hidx. exists (fst (MarshalJSON InputUTXO u)).
    split; [reflexivity|].
    unfold UnmarshalJSON.
    rewrite (ToSerializable_of_Marshal InputUTXO u Hwf), (ToSerializable_encoded _ u Hwf).
    destruct (Z.gtb_spec (TransactionOutputIndex u) 126); [lia|reflexivity].
  - intros u0 bytes j Hj Hlen.
    unfold UnmarshalJSON, jsonutxoinput_ToSerializable. rewrite Hj.
    destruct (hex.DecodeString (jsonTransactionID j)) as [bs|] eqn:E.
    + apply hex_decode_length in E. lia.
    + eexists; split; reflexivity.
Qed.

Lemma json_round_trip_and_hex_length_witness :
  (exists text,
     MarshalJSON x00 (mkUTXOInput (repeat x2a 32) 126) = (text, None) /\
     UnmarshalJSON jsonutxoinput_ToSerializable (mkUTXOInput (repeat x00 32) 0) text
     = (mkUTXOInput (repeat x2a 32) 126, None)) /\
  fails_with
    (snd (UnmarshalJSON jsonutxoinput_ToSerializable (mkUTXOInput (repeat x00 32) 0)
            (fst (json.Marshal
                    (mkjsonutxoinput 0
                       "2a2a2a2a2a2a2a2a2a2a2a2a2a2a2a2a2a2a2a2a2a2a2a2a2a2a2a2a2a2a2a2" 1)))))
    InvalidHexEncoding.
Proof.
  split.
  - apply (proj1 (json_round_trip_and_hex_length x00)).
    + split; [reflexivity | simpl; lia].
    + simpl; lia.
  - apply (proj2 (json_round_trip_and_hex_length x00)
             (mkUTXOInput (repeat x00 32) 0) _
             (mkjsonutxoinput 0
                "2a2a2a2a2a2a2a2a2a2a2a2a2a2a2a2a2a2a2a2a2a2a2a2a2a2a2a2a2a2a2a2" 1)).
    + vm_compute. reflexivity.
    + reflexivity.
Defined.

(** C10. [UnmarshalJSON] is atomic, whatever [ToSerializable] does: when
    it returns an error (from the JSON parser or from [ToSerializable]) the
    receiver is as it was before the call; when it returns no error the
    receiver is the record [ToSerializable] built from the parsed fields. *)
Theorem UnmarshalJSON_atomic
    (ToSerializable : jsonutxoinput -> error + UTXOInput)
    (u : UTXOInput) (bytes : string) :
  (forall u' e, UnmarshalJSON ToSerializable u bytes = (u', Some e) -> u' = u) /\
  (forall u', UnmarshalJSON ToSerializable u bytes = (u', None) ->
     exists j, json.Unmarshal bytes = inr j /\ ToSerializable j = inr u').
Proof.
  unfold UnmarshalJSON.
  destruct (json.Unmarshal bytes) as [e0|j].
  - split; [intros u' e [= <- _]; reflexivity | intros u' H; discriminate H].
  - destruct (ToSerializable j) as [e1|seri] eqn:E.
    + split; [intros u' e [= <- _]; reflexivity | intros u' H; discriminate H].
    + split; [intros u' e H; discriminate H|].
      intros u' [= <-]. exists j. split; [reflexivity | exact E].
Qed.

Lemma UnmarshalJSON_atomic_witness :
  (UnmarshalJSON jsonutxoinput_ToSerializable (mkUTXOInput (repeat x00 32) 7)
     (fst (MarshalJSON x00 (mkUTXOInput (repeat x2a 32) 127)))
   = (mkUTXOInput (repeat x00 32) 7, Some (errors_New SlotIndexOutOfRange)) /\
   mkUTXOInput (repeat x00 32) 7 = mkUTXOInput (repeat x00 32) 7) /\
  (UnmarshalJSON jsonutxoinput_ToSerializable (mkUTXOInput (repeat x00 32) 7)
     (fst (MarshalJSON x00 (mkUTXOInput (repeat x2a 32) 126)))
   = (mkUTXOInput (repeat x2a 32) 126, None) /\
   exists j,
     json.Unmarshal (fst (MarshalJSON x00 (mkUTXOInput (repeat x2a 32) 126))) = inr j /\
     jsonutxoinput_ToSerializable j = inr (mkUTXOInput (repeat x2a 32) 126)).
Proof.
  split.
  - assert (H : UnmarshalJSON jsonutxoinput_ToSerializable (mkUTXOInput (repeat x00 32) 7)
                  (fst (MarshalJSON x00 (mkUTXOInput (repeat x2a 32) 127)))
                = (mkUTXOInput (repeat x00 32) 7, Some (errors_New SlotIndexOutOfRange)))
      by (vm_compute; reflexivity).
    split; [exact H|].
    exact (proj1 (UnmarshalJSON_atomic _ _ _) _ _ H).
  - assert (H : UnmarshalJSON jsonutxoinput_ToSerializable (mkUTXOInput (repeat x00 32) 7)
                  (fst (MarshalJSON x00 (mkUTXOInput (repeat x2a 32) 126)))
                = (mkUTXOInput (repeat x2a 32) 126, None))
      by (vm_compute; reflexivity).
    split; [exact H|].
    exact (proj2 (UnmarshalJSON_atomic _ _ _) _ H).
Defined.

(** * Further properties *)

(** ** Identifiers *)

Lemma hex_encode_inj (a b : list byte) :
  hex.EncodeToString a = hex.EncodeToString b -> a = b.
Proof.
  intros H. apply (f_equal hex.DecodeString) in H.
  rewrite !hex_decode_encode in H. congruence.
Qed.

Lemma hex_encode_app (a b : list byte) :
  hex.EncodeToString (a ++ b)
  = (hex.EncodeToString a ++ hex.EncodeToString b)%string.
Proof.
  induction a as [|x a IH]; [reflexivity|].
  cbn [hex.EncodeToString List.app String.append]. rewrite IH. reflexivity.
Qed.

Lemma app_inj_same_length {A} (a b c d : list A) :
  List.length a = List.length b -> a ++ c = b ++ d -> a = b /\ c = d.
Proof.
  revert b. induction a as [|x a IH]; intros [|y b] Hl H; try discriminate Hl.
  - split; [reflexivity | exact H].
  - injection H as -> H. injection Hl as Hl.
    destruct (IH b Hl H) as [-> ->]. split; reflexivity.
Qed.

Lemma ID_inj (u1 u2 : UTXOInput) :
  wf_UTXOInput u1 -> wf_UTXOInput u2 -> ID u1 = ID u2 -> u1 = u2.
Proof.
  intros [L1 R1] [L2 R2] H.
  rewrite (ID_value u1 L1), (ID_value u2 L2) in H. injection H as H.
  apply app_inj_same_length in H; [|unfold len in L1, L2; lia].
  destruct H as [Ht Hb]. injection Hb as Hlo Hhi.
  destruct u1 as [t1 i1], u2 as [t2 i2]. cbn [TransactionID TransactionOutputIndex] in *.
  subst t2. f_equal.
  rewrite <- (le16_value_put i1 R1), <- (le16_value_put i2 R2), Hlo, Hhi.
  reflexivity.
Qed.

(** X1. The identifier names the output: two different records (each a
    32-byte transaction ID and a 16-bit output index) never have the same
    identifier, nor the same hex form of it. *)
Theorem ID_distinguishes_records (u1 u2 : UTXOInput) :
  wf_UTXOInput u1 -> wf_UTXOInput u2 -> u1 <> u2 ->
  ID u1 <> ID u2 /\
  option_map UTXOInputID_ToHex (ID u1) <> option_map UTXOInputID_ToHex (ID u2).
Proof.
  intros W1 W2 Hne.
  assert (Hid : ID u1 <> ID u2) by (intros H; exact (Hne (ID_inj u1 u2 W1 W2 H))).
  split; [exact Hid|].
  destruct (ID_total u1) as (id1 & E1 & _), (ID_total u2) as (id2 & E2 & _).
  rewrite E1, E2 in *. cbn [option_map]. intros [= H].
  apply hex_encode_inj in H. congruence.
Qed.

Lemma ID_distinguishes_records_witness :
  ID (mkUTXOInput (repeat x2a 32) 1) <> ID (mkUTXOInput (repeat x2a 32) 256) /\
  option_map UTXOInputID_ToHex (ID (mkUTXOInput (repeat x2a 32) 1))
  <> option_map UTXOInputID_ToHex (ID (mkUTXOInput (repeat x2a 32) 256)).
Proof.
  apply ID_distinguishes_records.
  - split; [reflexivity | simpl; lia].
  - split; [reflexivity | simpl; lia].
  - intros H. discriminate H.
Defined.

(** X2. The hex form of a record's identifier is the hex string
    [MarshalJSON] puts in the transaction ID field, followed by four
    characters that spell the output index as two little-endian bytes. *)
Theorem ToHex_of_ID_extends_json_id (u : UTXOInput) :
  wf_UTXOInput u ->
  exists tail lo hi,
    option_map UTXOInputID_ToHex (ID u)
    = Some (hex.EncodeToString (TransactionID u) ++ tail)%string /\
    String.length tail = 4%nat /\
    hex.DecodeString tail = Some [lo; hi] /\
    le16_value lo hi = TransactionOutputIndex u.
Proof.
  intros [Hlen Hidx].
  exists (hex.EncodeToString [byte_of_Z (TransactionOutputIndex u);
                              byte_of_Z (Z.shiftr (TransactionOutputIndex u) 8)]),
         (byte_of_Z (TransactionOutputIndex u)),
         (byte_of_Z (Z.shiftr (TransactionOutputIndex u) 8)).
  rewrite (ID_value u Hlen). cbn [option_map].
  unfold UTXOInputID_ToHex, fmt.Sprintf_x. rewrite hex_encode_app.
  split; [reflexivity|]. split; [reflexivity|].
  split; [apply hex_decode_encode|]. apply le16_value_put. exact Hidx.
Qed.

Lemma ToHex_of_ID_extends_json_id_witness :
  exists tail lo hi,
    option_map UTXOInputID_ToHex (ID (mkUTXOInput (repeat x2a 32) 300))
    = Some (hex.EncodeToString (repeat x2a 32) ++ tail)%string /\
    String.length tail = 4%nat /\
    hex.DecodeString tail = Some [lo; hi] /\
    le16_value lo hi = 300.
Proof.
  apply (ToHex_of_ID_extends_json_id (mkUTXOInput (repeat x2a 32) 300)).
  split; [reflexivity | simpl; lia].
Defined.

Lemma store_at_middle {A} (done : list A) (x v : A) (rest : list A) :
  store_at (done ++ x :: rest) (List.length done) v = Some (done ++ v :: rest).
Proof.
  induction done as [|d done IH]; [reflexivity|].
  cbn [List.app List.length store_at]. rewrite IH. reflexivity.
Qed.

Lemma ToHex_loop (done rest : list UTXOInputID) :
  fold_left
    (fun (ids : option (list string)) (i : nat) =>
       match ids, nth_error (done ++ rest) i with
       | Some ids, Some id => store_at ids i (fmt.Sprintf_x id)
       | _, _ => None
       end)
    (seq (List.length done) (List.length rest))
    (Some (map fmt.Sprintf_x done ++ repeat EmptyString (List.length rest)))
  = Some (map fmt.Sprintf_x (done ++ rest)).
Proof.
  revert done. induction rest as [|x rest IH]; intros done.
  - cbn. rewrite !app_nil_r. reflexivity.
  - cbn [List.length seq fold_left repeat].
    rewrite nth_error_app2, Nat.sub_diag by lia. cbn [nth_error].
    pose proof (store_at_middle (map fmt.Sprintf_x done) EmptyString (fmt.Sprintf_x x)
                  (repeat EmptyString (List.length rest))) as Hs.
    rewrite length_map in Hs.
    match goal with |- context [store_at ?l ?i ?v] =>
      assert (Hs' : store_at l i v
                    = Some (map fmt.Sprintf_x done ++ fmt.Sprintf_x x
                              :: repeat EmptyString (List.length rest)))
        by exact Hs;
      rewrite Hs'; clear Hs Hs'
    end.
    specialize (IH (done ++ [x])).
    rewrite length_app, <- app_assoc, map_app, <- app_assoc in IH.
    cbn [List.length List.app map] in IH.
    rewrite Nat.add_1_r in IH. exact IH.
Qed.

(** X3. [ToHex] on a slice of identifiers never panics and returns one
    string per identifier, in order: the string at index [i] is [ToHex] of
    the identifier at index [i]. *)
Theorem UTXOInputIDs_ToHex_elementwise (utxoInputIDs : UTXOInputIDs) :
  exists ids,
    UTXOInputIDs_ToHex utxoInputIDs = Some ids /\
    List.length ids = List.length utxoInputIDs /\
    forall i, nth_error ids i = option_map UTXOInputID_ToHex (nth_error utxoInputIDs i).
Proof.
  exists (map fmt.Sprintf_x utxoInputIDs). split.
  - exact (ToHex_loop [] utxoInputIDs).
  - split; [apply length_map|].
    intros i. apply nth_error_map.
Qed.

(** ** The binary codec, outside the validated round trip *)

(** The steps of a [Deserializer] that runs out of bytes. *)
Section DeserializerFailingSteps.
Context {T : Type}.
Variables (s : list byte) (o : Z) (x : T).

Lemma Skip_short (n : Z) (ep : ErrProducer) :
  len (skipn (Z.to_nat o) s) < n ->
  Deserializer.Skip n ep (Deserializer.mk s o None, x)
  = (Deserializer.mk s o (Some (ep (errors_New NotEnoughData))), x).
Proof.
  intros H. unfold Deserializer.Skip, Deserializer.rest.
  cbn [Deserializer.err Deserializer.src Deserializer.offset].
  destruct (Z.ltb_spec (len (skipn (Z.to_nat o) s)) n); [reflexivity|lia].
Qed.

Lemma ReadArrayOf32Bytes_short (store : list byte -> T -> T) (ep : ErrProducer) :
  len (skipn (Z.to_nat o) s) < 32 ->
  Deserializer.ReadArrayOf32Bytes store ep (Deserializer.mk s o None, x)
  = (Deserializer.mk s o (Some (ep (errors_New NotEnoughData))), x).
Proof.
  intros H. unfold Deserializer.ReadArrayOf32Bytes, Deserializer.rest.
  cbn [Deserializer.err Deserializer.src Deserializer.offset].
  destruct (Z.ltb_spec (len (skipn (Z.to_nat o) s)) 32); [reflexivity|lia].
Qed.

Lemma ReadNum_uint16_short (store : Z -> T -> T) (ep : ErrProducer) :
  len (skipn (Z.to_nat o) s) < 2 ->
  Deserializer.ReadNum (Deserializer.PtrUint16 store) ep (Deserializer.mk s o None, x)
  = (Deserializer.mk s o (Some (ep (errors_New NotEnoughData))), x).
Proof.
  intros H. unfold Deserializer.ReadNum, Deserializer.rest.
  cbn [Deserializer.err Deserializer.src Deserializer.offset].
  destruct (skipn (Z.to_nat o) s) as [|b0 [|b1 r]]; [reflexivity | reflexivity |].
  unfold len in H. cbn [List.length] in H. lia.
Qed.
End DeserializerFailingSteps.

Lemma len_skipn (n : nat) (l : list byte) : len (skipn n l) = Z.max 0 (len l - Z.of_nat n).
Proof. unfold len. rewrite length_skipn. lia. Qed.

Lemma bounds_none_inv (index : Z) (u : UTXOInput) :
  utxoInputRefBoundsValidator index u = None -> 0 <= TransactionOutputIndex u <= 126.
Proof.
  unfold utxoInputRefBoundsValidator, RefUTXOIndexMin, RefUTXOIndexMax.
  destruct (Z.ltb_spec (TransactionOutputIndex u) 0);
    destruct (Z.gtb_spec (TransactionOutputIndex u) 126); simpl;
    intros Hn; try discriminate Hn; lia.
Qed.

(** The bytes of a value are the bytes [PutUint16] writes for it. *)
Lemma put_le16_value (lo hi : byte) :
  byte_of_Z (le16_value lo hi) = lo /\
  byte_of_Z (Z.shiftr (le16_value lo hi) 8) = hi.
Proof.
  apply le16_value_inj. apply le16_value_put. apply le16_value_range.
Qed.

Section CodecFurther.
Variable InputUTXO : byte.

(** Without validation, the three ways a buffer can be too short. *)
Lemma Deserialize_lax_empty (u : UTXOInput) :
  Deserialize InputUTXO u [] DeSeriModeNoValidation
  = (u, (0, Some (fmt_Errorf "unable to skip UTXO input type during deserialization: %w"
                    (errors_New NotEnoughData)))).
Proof. reflexivity. Qed.

Lemma Deserialize_lax_no_id (u : UTXOInput) (data : list byte) :
  1 <= len data < 33 ->
  Deserialize InputUTXO u data DeSeriModeNoValidation
  = (u, (1, Some (fmt_Errorf "unable to deserialize transaction ID in UTXO input: %w"
                    (errors_New NotEnoughData)))).
Proof.
  intros H. unfold Deserialize, Deserializer.NewDeserializer.
  rewrite AbortIf_pass by reflexivity.
  rewrite Skip_ok by (change (skipn (Z.to_nat 0) data) with data;
                      change SmallTypeDenotationByteSize with 1; lia).
  rewrite ReadArrayOf32Bytes_short.
  2:{ change (Z.to_nat (0 + SmallTypeDenotationByteSize)) with 1%nat.
      rewrite len_skipn. lia. }
  reflexivity.
Qed.

Lemma Deserialize_lax_no_index (u : UTXOInput) (data : list byte) :
  33 <= len data < 35 ->
  Deserialize InputUTXO u data DeSeriModeNoValidation
  = (set_TransactionID (firstn 32 (skipn 1 data)) u,
     (33, Some (fmt_Errorf
                  "unable to deserialize transaction output index in UTXO input: %w"
                  (errors_New NotEnoughData)))).
Proof.
  intros H. unfold Deserialize, Deserializer.NewDeserializer.
  rewrite AbortIf_pass by reflexivity.
  rewrite Skip_ok by (change (skipn (Z.to_nat 0) data) with data;
                      change SmallTypeDenotationByteSize with 1; lia).
  change (Z.to_nat (0 + SmallTypeDenotationByteSize)) with 1%nat.
  rewrite ReadArrayOf32Bytes_ok.
  2:{ change (Z.to_nat (0 + SmallTypeDenotationByteSize)) with 1%nat.
      rewrite len_skipn. lia. }
  change (Z.to_nat (0 + SmallTypeDenotationByteSize)) with 1%nat.
  rewrite ReadNum_uint16_short.
  2:{ change (Z.to_nat (0 + SmallTypeDenotationByteSize + 32)) with 33%nat.
      rewrite len_skipn. lia. }
  reflexivity.
Qed.

(** Whatever the mode, a call that returns no error has read a buffer of
    the wire layout. *)
Lemma Deserialize_success_layout (u u' : UTXOInput) (data : list byte)
    (mode : DeSerializationMode) (n : Z) :
  Deserialize InputUTXO u data mode = (u', (n, None)) ->
  exists tag txid lo hi trailing,
    data = tag :: txid ++ lo :: hi :: trailing /\
    len txid = 32 /\
    u' = mkUTXOInput txid (le16_value lo hi) /\
    n = 35 /\
    (mode = DeSeriModePerformValidation ->
     tag = InputUTXO /\ le16_value lo hi <= 126).
Proof.
  intros H.
  destruct (Z.lt_ge_cases (len data) 35) as [Hs|Hl].
  { exfalso. destruct mode.
    - destruct (Z.lt_ge_cases (len data) 1) as [H0|H1].
      + destruct data; [|unfold len in H0; cbn [List.length] in H0; lia].
        rewrite Deserialize_lax_empty in H. discriminate H.
      + destruct (Z.lt_ge_cases (len data) 33).
        * rewrite Deserialize_lax_no_id in H by lia. discriminate H.
        * rewrite Deserialize_lax_no_index in H by lia. discriminate H.
    - rewrite Deserialize_strict_short in H by exact Hs. discriminate H. }
  destruct (wire_layout data Hl)
    as (tag & txid & lo & hi & trailing & Hd & Ht & _ & H0 & _).
  exists tag, txid, lo, hi, trailing.
  split; [exact Hd|]. split; [exact Ht|].
  destruct mode.
  - subst data. rewrite Deserialize_reads in H by (exact Ht || (left; reflexivity)).
    cbn [HasMode] in H. injection H as <- <-.
    repeat split; intros; discriminate.
  - destruct (byte_eq_dec tag InputUTXO) as [->|Hne].
    2:{ rewrite Deserialize_strict_wrong_tag in H by (exact Hl || congruence).
        discriminate H. }
    subst data. rewrite Deserialize_reads in H by (exact Ht || (right; reflexivity)).
    cbn [HasMode] in H.
    destruct (utxoInputRefBoundsValidator (-1) (mkUTXOInput txid (le16_value lo hi)))
      eqn:Eb; [discriminate H|].
    apply bounds_none_inv in Eb. cbn in Eb.
    injection H as <- <-. repeat split; lia.
Qed.
End CodecFurther.

(** What the positions of a buffer of the wire layout hold. *)
Lemma layout_facts (tag : byte) (txid : list byte) (lo hi : byte) (trailing : list byte) :
  len txid = 32 ->
  35 <= len (tag :: txid ++ lo :: hi :: trailing) /\
  nth_error (tag :: txid ++ lo :: hi :: trailing) 0 = Some tag /\
  nth_error (tag :: txid ++ lo :: hi :: trailing) 33 = Some lo /\
  nth_error (tag :: txid ++ lo :: hi :: trailing) 34 = Some hi /\
  firstn 32 (skipn 1 (tag :: txid ++ lo :: hi :: trailing)) = txid /\
  firstn 34 (skipn 1 (tag :: txid ++ lo :: hi :: trailing)) = txid ++ [lo; hi] /\
  firstn 35 (tag :: txid ++ lo :: hi :: trailing) = tag :: txid ++ [lo; hi].
Proof.
  intros Ht.
  assert (Hl : 35 <= len (tag :: txid ++ lo :: hi :: trailing)).
  { change (tag :: txid ++ lo :: hi :: trailing)
      with ([tag] ++ txid ++ [lo; hi] ++ trailing).
    rewrite !len_app, Ht. pose proof (len_nonneg trailing).
    change (len [tag]) with 1. change (len [lo; hi]) with 2. lia. }
  split; [exact Hl|].
  assert (Hn : List.length txid = 32%nat) by (unfold len in Ht; lia).
  split; [reflexivity|].
  change (nth_error (tag :: txid ++ lo :: hi :: trailing) 33)
    with (nth_error (txid ++ lo :: hi :: trailing) 32).
  change (nth_error (tag :: txid ++ lo :: hi :: trailing) 34)
    with (nth_error (txid ++ lo :: hi :: trailing) 33).
  change (skipn 1 (tag :: txid ++ lo :: hi :: trailing)) with (txid ++ lo :: hi :: trailing).
  change (firstn 35 (tag :: txid ++ lo :: hi :: trailing))
    with (tag :: firstn 34 (txid ++ lo :: hi :: trailing)).
  rewrite !nth_error_app2, !firstn_app, Hn by lia.
  rewrite (firstn_all2 (n := 32) txid), (firstn_all2 (n := 34) txid) by lia.
  repeat split; try reflexivity.
  apply app_nil_r.
Qed.

(** X4. The bytes [Serialize] returns are the type tag followed by the
    identifier [ID] returns, in either mode, whenever [Serialize] is not
    stopped by the bounds check. *)
Theorem Serialize_is_tag_then_ID (InputUTXO : byte) (u : UTXOInput)
    (mode : DeSerializationMode) :
  wf_UTXOInput u ->
  mode = DeSeriModeNoValidation \/ TransactionOutputIndex u <= 126 ->
  exists id, ID u = Some id /\ Serialize InputUTXO u mode = (InputUTXO :: id, None).
Proof.
  intros [Hlen Hidx] Hm. eexists. split; [apply ID_value; exact Hlen|].
  apply Serialize_bytes. destruct Hm as [Hm|Hm]; [left; exact Hm | right; lia].
Qed.

Lemma Serialize_is_tag_then_ID_witness :
  exists id,
    ID (mkUTXOInput (repeat x2a 32) 40000) = Some id /\
    Serialize x07 (mkUTXOInput (repeat x2a 32) 40000) DeSeriModeNoValidation
    = (x07 :: id, None).
Proof.
  apply Serialize_is_tag_then_ID.
  - split; [reflexivity | simpl; lia].
  - left; reflexivity.
Defined.

(** X5. Without validation every record goes through: [Serialize] returns
    35 bytes and no error whatever the output index, and [Deserialize]
    without validation gives the record back. A validating [Deserialize] of
    the same bytes fails with [SlotIndexOutOfRange] when the index is
    above 126. *)
Theorem unvalidated_round_trip (InputUTXO : byte) (u u0 : UTXOInput) :
  wf_UTXOInput u ->
  exists data,
    Serialize InputUTXO u DeSeriModeNoValidation = (data, None) /\
    len data = 35 /\
    Deserialize InputUTXO u0 data DeSeriModeNoValidation = (u, (35, None)) /\
    (126 < TransactionOutputIndex u ->
     fails_with (snd (snd (Deserialize InputUTXO u0 data DeSeriModePerformValidation)))
       SlotIndexOutOfRange).
Proof.
  intros [Hlen Hidx]. eexists.
  split; [apply Serialize_bytes; left; reflexivity|].
  split.
  { change (InputUTXO :: TransactionID u ++ ?l) with ([InputUTXO] ++ TransactionID u ++ l).
    rewrite !len_app, Hlen. reflexivity. }
  change (TransactionID u ++ [?a; ?b]) with (TransactionID u ++ a :: b :: []).
  split.
  - rewrite Deserialize_reads by (exact Hlen || (left; reflexivity)).
    rewrite le16_value_put by exact Hidx. destruct u; reflexivity.
  - intros Hbig.
    rewrite Deserialize_reads by (exact Hlen || (right; reflexivity)).
    rewrite le16_value_put by exact Hidx. cbn [HasMode snd].
    rewrite bounds_bad by (right; exact Hbig).
    eexists; split; reflexivity.
Qed.

Lemma unvalidated_round_trip_witness :
  exists data,
    Serialize x00 (mkUTXOInput (repeat x2a 32) 40000) DeSeriModeNoValidation
    = (data, None) /\
    len data = 35 /\
    Deserialize x00 (mkUTXOInput (repeat x00 32) 0) data DeSeriModeNoValidation
    = (mkUTXOInput (repeat x2a 32) 40000, (35, None)) /\
    (126 < TransactionOutputIndex (mkUTXOInput (repeat x2a 32) 40000) ->
     fails_with
       (snd (snd (Deserialize x00 (mkUTXOInput (repeat x00 32) 0) data
                    DeSeriModePerformValidation))) SlotIndexOutOfRange).
Proof.
  apply unvalidated_round_trip. split; [reflexivity | simpl; lia].
Defined.

(** X6. What a [Deserialize] that returns no error guarantees, in either
    mode: the buffer had at least 35 bytes, exactly 35 are reported read,
    the receiver holds bytes 1 to 32 as transaction ID and bytes 33 and 34
    as little-endian output index, and it is a well-formed record. With
    validation, moreover, the first byte was the type tag and the index is
    at most 126. *)
Theorem Deserialize_success_inv (InputUTXO : byte) (u u' : UTXOInput)
    (data : list byte) (mode : DeSerializationMode) (n : Z) :
  Deserialize InputUTXO u data mode = (u', (n, None)) ->
  n = 35 /\ 35 <= len data /\
  TransactionID u' = firstn 32 (skipn 1 data) /\
  (exists lo hi,
     nth_error data 33 = Some lo /\ nth_error data 34 = Some hi /\
     TransactionOutputIndex u' = le16_value lo hi) /\
  wf_UTXOInput u' /\
  (mode = DeSeriModePerformValidation ->
   nth_error data 0 = Some InputUTXO /\ TransactionOutputIndex u' <= 126).
Proof.
  intros H.
  destruct (Deserialize_success_layout InputUTXO u u' data mode n H)
    as (tag & txid & lo & hi & trailing & -> & Ht & -> & -> & Hm).
  destruct (layout_facts tag txid lo hi trailing Ht)
    as (Hl & H0 & H33 & H34 & H32 & _).
  split; [reflexivity|]. split; [exact Hl|].
  split; [symmetry; exact H32|].
  split; [exists lo, hi; repeat split; assumption|].
  split; [split; [exact Ht | apply le16_value_range]|].
  intros E. destruct (Hm E) as [-> Hb]. split; [exact H0 | exact Hb].
Qed.

Lemma Deserialize_success_inv_witness :
  35 = 35 /\ 35 <= len (x09 :: repeat x2a 32 ++ [xff; xff; x01]) /\
  TransactionID (mkUTXOInput (repeat x2a 32) 65535)
  = firstn 32 (skipn 1 (x09 :: repeat x2a 32 ++ [xff; xff; x01])) /\
  (exists lo hi,
     nth_error (x09 :: repeat x2a 32 ++ [xff; xff; x01]) 33 = Some lo /\
     nth_error (x09 :: repeat x2a 32 ++ [xff; xff; x01]) 34 = Some hi /\
     TransactionOutputIndex (mkUTXOInput (repeat x2a 32) 65535) = le16_value lo hi) /\
  wf_UTXOInput (mkUTXOInput (repeat x2a 32) 65535) /\
  (DeSeriModeNoValidation = DeSeriModePerformValidation ->
   nth_error (x09 :: repeat x2a 32 ++ [xff; xff; x01]) 0 = Some x00 /\
   TransactionOutputIndex (mkUTXOInput (repeat x2a 32) 65535) <= 126).
Proof.
  apply (Deserialize_success_inv x00 (mkUTXOInput (repeat x00 32) 0)
           (mkUTXOInput (repeat x2a 32) 65535)
           (x09 :: repeat x2a 32 ++ [xff; xff; x01]) DeSeriModeNoValidation 35).
  vm_compute. reflexivity.
Defined.

(** X7. How a validating [Deserialize] fails. The checks run in a fixed
    order and the first failure wins: a short buffer is [TruncatedInput]
    even when its first byte is wrong; then a wrong first byte is
    [TypeMismatch]; in both cases nothing was read and the receiver is
    untouched. Only then can the bounds check fail, with all 35 bytes
    read. *)
Theorem strict_decode_failure_cases (InputUTXO : byte) (u u' : UTXOInput)
    (data : list byte) (n : Z) (e : error) :
  Deserialize InputUTXO u data DeSeriModePerformValidation = (u', (n, Some e)) ->
  (errors_Is e TruncatedInput = true /\ len data < 35 /\ u' = u /\ n = 0) \/
  (errors_Is e TypeMismatch = true /\ 35 <= len data /\
   nth_error data 0 <> Some InputUTXO /\ u' = u /\ n = 0) \/
  (errors_Is e SlotIndexOutOfRange = true /\ 35 <= len data /\
   nth_error data 0 = Some InputUTXO /\ n = 35).
Proof.
  intros H.
  destruct (Z.lt_ge_cases (len data) 35) as [Hs|Hl].
  { left. rewrite Deserialize_strict_short in H by exact Hs.
    injection H as <- <- <-. repeat split. exact Hs. }
  right.
  destruct (wire_layout data Hl)
    as (tag & txid & lo & hi & trailing & Hd & Ht & _ & H0 & _).
  destruct (byte_eq_dec tag InputUTXO) as [->|Hne].
  - right. subst data.
    rewrite Deserialize_reads in H by (exact Ht || (right; reflexivity)).
    cbn [HasMode] in H.
    destruct (utxoInputRefBoundsValidator (-1) (mkUTXOInput txid (le16_value lo hi)))
      as [e0|] eqn:Eb; [|discriminate H].
    apply bounds_inv in Eb. destruct Eb as [-> _].
    injection H as _ <- <-. repeat split; assumption.
  - left. assert (Hn : nth_error data 0 <> Some InputUTXO) by congruence.
    rewrite Deserialize_strict_wrong_tag in H by assumption.
    injection H as <- <- <-. repeat split; assumption.
Qed.

Lemma strict_decode_failure_cases_witness :
  (errors_Is (fmt_Errorf "invalid UTXO input bytes: %w" (errors_New TruncatedInput))
     TruncatedInput = true /\
   len [x01; x02; x03] < 35 /\
   mkUTXOInput (repeat x00 32) 9 = mkUTXOInput (repeat x00 32) 9 /\ 0 = 0) \/
  (errors_Is (fmt_Errorf "invalid UTXO input bytes: %w" (errors_New TruncatedInput))
     TypeMismatch = true /\
   35 <= len [x01; x02; x03] /\
   nth_error [x01; x02; x03] 0 <> Some x00 /\
   mkUTXOInput (repeat x00 32) 9 = mkUTXOInput (repeat x00 32) 9 /\ 0 = 0) \/
  (errors_Is (fmt_Errorf "invalid UTXO input bytes: %w" (errors_New TruncatedInput))
     SlotIndexOutOfRange = true /\
   35 <= len [x01; x02; x03] /\
   nth_error [x01; x02; x03] 0 = Some x00 /\ 0 = 35).
Proof.
  apply (strict_decode_failure_cases x00 (mkUTXOInput (repeat x00 32) 9)
           (mkUTXOInput (repeat x00 32) 9) [x01; x02; x03] 0
           (fmt_Errorf "invalid UTXO input bytes: %w" (errors_New TruncatedInput))).
  reflexivity.
Defined.

(** X8. Without validation a buffer shorter than 35 bytes still fails, but
    not atomically: fewer than 35 bytes are reported read and the output
    index of the receiver is never touched; below 33 bytes the receiver is
    unchanged, while with 33 or 34 bytes its transaction ID has already
    been overwritten with bytes 1 to 32 when the read of the index fails. *)
Theorem unvalidated_decode_short_buffer (InputUTXO : byte) (u : UTXOInput)
    (data : list byte) :
  len data < 35 ->
  exists u' n e,
    Deserialize InputUTXO u data DeSeriModeNoValidation = (u', (n, Some e)) /\
    n < 35 /\
    TransactionOutputIndex u' = TransactionOutputIndex u /\
    (len data < 33 -> u' = u) /\
    (33 <= len data -> TransactionID u' = firstn 32 (skipn 1 data) /\ n = 33).
Proof.
  intros Hs.
  destruct (Z.lt_ge_cases (len data) 1) as [H0|H1].
  { destruct data; [|unfold len in H0; cbn [List.length] in H0; lia].
    eexists _, _, _. split; [apply Deserialize_lax_empty|].
    repeat split; try reflexivity; unfold len; cbn [List.length]; lia. }
  destruct (Z.lt_ge_cases (len data) 33) as [H32|H33].
  - eexists _, _, _. split; [apply Deserialize_lax_no_id; lia|].
    repeat split; try reflexivity; lia.
  - eexists _, _, _. split; [apply Deserialize_lax_no_index; lia|].
    repeat split; try reflexivity; lia.
Qed.

Lemma unvalidated_decode_short_buffer_witness :
  exists u' n e,
    Deserialize x00 (mkUTXOInput (repeat x00 32) 9) (x00 :: repeat x2a 32 ++ [x05])
      DeSeriModeNoValidation = (u', (n, Some e)) /\
    n < 35 /\
    TransactionOutputIndex u' = 9 /\
    (len (x00 :: repeat x2a 32 ++ [x05]) < 33 -> u' = mkUTXOInput (repeat x00 32) 9) /\
    (33 <= len (x00 :: repeat x2a 32 ++ [x05]) ->
     TransactionID u' = firstn 32 (skipn 1 (x00 :: repeat x2a 32 ++ [x05])) /\ n = 33).
Proof.
  apply (unvalidated_decode_short_buffer x00 (mkUTXOInput (repeat x00 32) 9)
           (x00 :: repeat x2a 32 ++ [x05])).
  vm_compute. reflexivity.
Defined.

(** X9. Decoding then encoding gives the bytes back: after a [Deserialize]
    without error, [Serialize] of the receiver in the same mode returns the
    type tag followed by bytes 1 to 34 of the buffer; with validation that
    is the first 35 bytes of the buffer as they were. *)
Theorem decode_then_encode (InputUTXO : byte) (u u' : UTXOInput)
    (data : list byte) (mode : DeSerializationMode) (n : Z) :
  Deserialize InputUTXO u data mode = (u', (n, None)) ->
  Serialize InputUTXO u' mode = (InputUTXO :: firstn 34 (skipn 1 data), None) /\
  (mode = DeSeriModePerformValidation ->
   Serialize InputUTXO u' mode = (firstn 35 data, None)).
Proof.
  intros H.
  destruct (Deserialize_success_layout InputUTXO u u' data mode n H)
    as (tag & txid & lo & hi & trailing & -> & Ht & -> & -> & Hm).
  destruct (layout_facts tag txid lo hi trailing Ht)
    as (_ & _ & _ & _ & _ & H34 & H35).
  assert (E : Serialize InputUTXO (mkUTXOInput txid (le16_value lo hi)) mode
              = (InputUTXO :: txid ++ [lo; hi], None)).
  { rewrite Serialize_bytes.
    - cbn [TransactionID TransactionOutputIndex].
      destruct (put_le16_value lo hi) as [-> ->]. reflexivity.
    - destruct mode; [left; reflexivity|]. right.
      destruct (Hm eq_refl) as [_ Hb]. pose proof (le16_value_range lo hi).
      cbn [TransactionOutputIndex]. lia. }
  rewrite E, H34, H35. split; [reflexivity|].
  intros Em. destruct (Hm Em) as [-> _]. reflexivity.
Qed.

Lemma decode_then_encode_witness :
  Serialize x00 (mkUTXOInput (repeat x2a 32) 65535) DeSeriModeNoValidation
  = (x00 :: firstn 34 (skipn 1 (x09 :: repeat x2a 32 ++ [xff; xff; x01])), None) /\
  (DeSeriModeNoValidation = DeSeriModePerformValidation ->
   Serialize x00 (mkUTXOInput (repeat x2a 32) 65535) DeSeriModeNoValidation
   = (firstn 35 (x09 :: repeat x2a 32 ++ [xff; xff; x01]), None)).
Proof.
  apply (decode_then_encode x00 (mkUTXOInput (repeat x00 32) 0)
           (mkUTXOInput (repeat x2a 32) 65535)
           (x09 :: repeat x2a 32 ++ [xff; xff; x01]) DeSeriModeNoValidation 35).
  vm_compute. reflexivity.
Defined.

(** X10. The identifier of a decoded record is read off the wire: after a
    [Deserialize] without error, [ID] of the receiver is bytes 1 to 34 of
    the buffer. *)
Theorem ID_of_decoded (InputUTXO : byte) (u u' : UTXOInput)
    (data : list byte) (mode : DeSerializationMode) (n : Z) :
  Deserialize InputUTXO u data mode = (u', (n, None)) ->
  ID u' = Some (firstn 34 (skipn 1 data)).
Proof.
  intros H.
  destruct (Deserialize_success_layout InputUTXO u u' data mode n H)
    as (tag & txid & lo & hi & trailing & -> & Ht & -> & -> & Hm).
  destruct (layout_facts tag txid lo hi trailing Ht) as (_ & _ & _ & _ & _ & H34 & _).
  rewrite H34, ID_value by exact Ht.
  cbn [TransactionID TransactionOutputIndex].
  destruct (put_le16_value lo hi) as [-> ->]. reflexivity.
Qed.

Lemma ID_of_decoded_witness :
  ID (mkUTXOInput (repeat x2a 32) 126)
  = Some (firstn 34 (skipn 1 (x00 :: repeat x2a 32 ++ [x7e; x00; x01]))).
Proof.
  apply (ID_of_decoded x00 (mkUTXOInput (repeat x00 32) 0)
           (mkUTXOInput (repeat x2a 32) 126)
           (x00 :: repeat x2a 32 ++ [x7e; x00; x01]) DeSeriModePerformValidation 35).
  vm_compute. reflexivity.
Defined.

(** X11. What [Deserialize] reports never depends on what the receiver
    held before the call: the byte count and the error are the same for
    any two receivers, and when there is no error the receiver after the
    call is the same too. *)
Theorem Deserialize_outcome_ignores_receiver (InputUTXO : byte) (u1 u2 : UTXOInput)
    (data : list byte) (mode : DeSerializationMode) :
  snd (Deserialize InputUTXO u1 data mode) = snd (Deserialize InputUTXO u2 data mode) /\
  (snd (snd (Deserialize InputUTXO u1 data mode)) = None ->
   fst (Deserialize InputUTXO u1 data mode) = fst (Deserialize InputUTXO u2 data mode)).
Proof.
  destruct (Z.lt_ge_cases (len data) 35) as [Hs|Hl].
  - destruct mode.
    + destruct (Z.lt_ge_cases (len data) 1) as [H0|H1].
      { destruct data; [|unfold len in H0; cbn [List.length] in H0; lia].
        rewrite !Deserialize_lax_empty. split; [reflexivity | discriminate]. }
      destruct (Z.lt_ge_cases (len data) 33).
      * rewrite !Deserialize_lax_no_id by lia. split; [reflexivity | discriminate].
      * rewrite !Deserialize_lax_no_index by lia. split; [reflexivity | discriminate].
    + rewrite !Deserialize_strict_short by exact Hs. split; [reflexivity | discriminate].
  - destruct (wire_layout data Hl)
      as (tag & txid & lo & hi & trailing & Hd & Ht & _ & H0 & _).
    destruct mode.
    + subst data. rewrite !Deserialize_reads by (exact Ht || (left; reflexivity)).
      split; reflexivity.
    + destruct (byte_eq_dec tag InputUTXO) as [->|Hne].
      * subst data. rewrite !Deserialize_reads by (exact Ht || (right; reflexivity)).
        split; reflexivity.
      * assert (Hn : nth_error data 0 <> Some InputUTXO) by congruence.
        rewrite !Deserialize_strict_wrong_tag by assumption.
        split; [reflexivity | discriminate].
Qed.

Lemma Deserialize_outcome_ignores_receiver_witness :
  snd (Deserialize x00 (mkUTXOInput (repeat x00 32) 0)
         (x00 :: repeat x2a 32 ++ [x7e; x00]) DeSeriModePerformValidation)
  = snd (Deserialize x00 (mkUTXOInput (repeat xff 32) 65535)
           (x00 :: repeat x2a 32 ++ [x7e; x00]) DeSeriModePerformValidation) /\
  fst (Deserialize x00 (mkUTXOInput (repeat x00 32) 0)
         (x00 :: repeat x2a 32 ++ [x7e; x00]) DeSeriModePerformValidation)
  = fst (Deserialize x00 (mkUTXOInput (repeat xff 32) 65535)
           (x00 :: repeat x2a 32 ++ [x7e; x00]) DeSeriModePerformValidation).
Proof.
  pose proof (Deserialize_outcome_ignores_receiver x00
                (mkUTXOInput (repeat x00 32) 0) (mkUTXOInput (repeat xff 32) 65535)
                (x00 :: repeat x2a 32 ++ [x7e; x00]) DeSeriModePerformValidation)
    as [H1 H2].
  split; [exact H1|]. apply H2. vm_compute. reflexivity.
Defined.

(** ** The JSON adapter, further *)

(** X12. [MarshalJSON] loses nothing: its text parses back to the type
    tag, the hex of the transaction ID and the output index of the record,
    whatever the index; so two different records never give the same
    text. *)
Theorem MarshalJSON_keeps_the_record (InputUTXO : byte) (u1 u2 : UTXOInput) :
  wf_UTXOInput u1 -> wf_UTXOInput u2 ->
  json.Unmarshal (fst (MarshalJSON InputUTXO u1))
  = inr (mkjsonutxoinput (Z_of_byte InputUTXO) (hex.EncodeToString (TransactionID u1))
           (TransactionOutputIndex u1)) /\
  snd (MarshalJSON InputUTXO u1) = None /\
  (u1 <> u2 -> fst (MarshalJSON InputUTXO u1) <> fst (MarshalJSON InputUTXO u2)).
Proof.
  intros W1 W2.
  split; [apply ToSerializable_of_Marshal; exact W1|].
  split; [reflexivity|].
  intros Hne E. apply Hne.
  pose proof (ToSerializable_of_Marshal InputUTXO u1 W1) as P1.
  pose proof (ToSerializable_of_Marshal InputUTXO u2 W2) as P2.
  rewrite E, P2 in P1. injection P1 as Hh Hi.
  apply hex_encode_inj in Hh.
  destruct u1, u2; cbn in *; congruence.
Qed.

Lemma MarshalJSON_keeps_the_record_witness :
  json.Unmarshal (fst (MarshalJSON x00 (mkUTXOInput (repeat x2a 32) 40000)))
  = inr (mkjsonutxoinput (Z_of_byte x00) (hex.EncodeToString (repeat x2a 32)) 40000) /\
  snd (MarshalJSON x00 (mkUTXOInput (repeat x2a 32) 40000)) = None /\
  (mkUTXOInput (repeat x2a 32) 40000 <> mkUTXOInput (repeat x2a 32) 4000 ->
   fst (MarshalJSON x00 (mkUTXOInput (repeat x2a 32) 40000))
   <> fst (MarshalJSON x00 (mkUTXOInput (repeat x2a 32) 4000))).
Proof.
  apply (MarshalJSON_keeps_the_record x00 (mkUTXOInput (repeat x2a 32) 40000)
           (mkUTXOInput (repeat x2a 32) 4000)).
  - split; [reflexivity | simpl; lia].
  - split; [reflexivity | simpl; lia].
Defined.
